(** * MobileGameDev server: news, score and start-up logic

    A shallow embedding of [server.js], [apis/news_api.js] and
    [apis/score_api.js].  The handlers are written in continuation-passing
    style, as the JavaScript is: every call of the AWS SDK takes the callback
    [function (err, data) { ... }].  The hosted key/sort-key store is the
    environment of the program; it is modelled as two finite maps keyed by
    (partition key, sort key), together with the outcome the network reports
    for each upcoming call. *)

From Stdlib Require Import ZArith Ascii DecimalString DecimalPos DecimalZ.
From stdpp Require Import gmap strings list fin_maps sorting.

Local Open Scope string_scope.
Local Open Scope Z_scope.

(** ** JavaScript values *)

(** The values a JSON request body can hold in one of its fields.  A field
    that is absent reads as [JUndefined].  [JObject] stands for nested
    objects and arrays: the handlers only test them for truthiness and hand
    them to the SDK, which refuses anything that is not a string.  Numbers
    are taken to be integers; a fraction behaves like any non-zero integer
    here, truthy and not a string. *)
Inductive JSValue : Type :=
| JUndefined
| JNull
| JBool (b : bool)
| JNumber (n : Z)
| JString (s : string)
| JObject.

(** ToBoolean of the language: [undefined], [null], [false], [0] and the
    empty string are falsy. *)
Definition truthy (v : JSValue) : bool :=
  match v with
  | JUndefined | JNull => false
  | JBool b => b
  | JNumber n => negb (n =? 0)
  | JString s => match s with EmptyString => false | String _ _ => true end
  | JObject => true
  end.

(** [a && b] yields [a] when [a] is falsy and [b] otherwise. *)
Definition js_and (a b : JSValue) : JSValue := if truthy a then b else a.

Infix "&&&" := js_and (at level 40, left associativity).

(** ** JavaScript numbers on integers *)

(** Numbers are IEEE doubles.  On integers the only effect is the rounding to
    a 53-bit significand (nearest, ties to even). *)
Definition MAX_SAFE_INTEGER : Z := 2 ^ 53 - 1.

Definition to_double (z : Z) : Z :=
  let a := Z.abs z in
  let e := Z.log2 a - 52 in
  if e <=? 0 then z
  else
    let q := Z.shiftr a e in
    let r := Z.land a (Z.ones e) in
    let half := Z.shiftl 1 (e - 1) in
    let q' := if r <? half then q
              else if half <? r then q + 1
              else if Z.even q then q else q + 1 in
    Z.sgn z * Z.shiftl q' e.

(** Decimal notation of an integer. *)
Definition decimal (z : Z) : string := NilZero.string_of_int (Z.to_int z).

(** Numerals.  The store reads the [N] strings it is sent as decimal
    numbers; the tables here hold integer sort keys, so a numeral is read
    to the integer it denotes, if it denotes one.  [plain_integer] reads an
    optional minus sign and digits; [scientific] reads the longer forms, with
    a fraction and an exponent (["1.0"], ["1e2"], ["250e-1"]).  A numeral of
    a number that is not an integer (["1.5"]) has no reading. *)
Definition plain_integer (s : string) : option Z :=
  Z.of_int <$> NilZero.int_of_string s.

Definition digit_of (a : Ascii.ascii) : option Z :=
  let n := Z.of_N (N_of_ascii a) in
  if (48 <=? n) && (n <=? 57) then Some (n - 48) else None.

(** The digits at the head of [l]: their value after [acc], how many there
    are, and what follows them. *)
Fixpoint digits (l : list Ascii.ascii) (acc : Z) (count : Z)
  : Z * Z * list Ascii.ascii :=
  match l with
  | a :: l' =>
      match digit_of a with
      | Some d => digits l' (10 * acc + d) (count + 1)
      | None => (acc, count, l)
      end
  | [] => (acc, count, [])
  end.

Definition fraction (whole : Z) (l : list Ascii.ascii)
  : option (Z * Z * list Ascii.ascii) :=
  match l with
  | "."%char :: l' =>
      let '(v, n, rest) := digits l' whole 0 in
      if n =? 0 then None else Some (v, n, rest)
  | _ => Some (whole, 0, l)
  end.

Definition exponent (l : list Ascii.ascii) : option Z :=
  match l with
  | [] => Some 0
  | a :: l' =>
      if bool_decide (a = "e"%char ∨ a = "E"%char) then
        let '(sign, l'') :=
          match l' with
          | "-"%char :: r => (-1, r)
          | "+"%char :: r => (1, r)
          | _ => (1, l')
          end in
        let '(v, n, rest) := digits l'' 0 0 in
        match rest with
        | [] => if n =? 0 then None else Some (sign * v)
        | _ => None
        end
      else None
  end.

Definition scientific (s : string) : option Z :=
  let l := String.list_ascii_of_string s in
  let '(sign, l) :=
    match l with
    | "-"%char :: r => (-1, r)
    | _ => (1, l)
    end in
  let '(whole, n, l) := digits l 0 0 in
  if n =? 0 then None
  else
    '(d, places, l) ← fraction whole l;
    e ← exponent l;
    let k := e - places in
    if 0 <=? k then Some (sign * d * 10 ^ k)
    else if d mod 10 ^ (- k) =? 0 then Some (sign * (d / 10 ^ (- k)))
    else None.

(** The integer a numeral denotes.  [Number(...)] is only ever applied to
    the numerals the store hands back, which are those of [decimal]. *)
Definition parse_decimal (s : string) : option Z :=
  match plain_integer s with
  | Some z => Some z
  | None => scientific s
  end.

(** A number is [Some z], and [None] is NaN. *)
Definition Number (s : string) : option Z := to_double <$> parse_decimal s.

(** [++ID] *)
Definition increment (n : option Z) : option Z :=
  (λ z, to_double (z + 1)) <$> n.

(** [n.toString()]: plain digits.  From 10^21 on JavaScript writes the
    number with an exponent; the store reads either notation to the same
    number, so the key a numeral denotes is the same. *)
Definition toString (n : option Z) : string :=
  match n with
  | Some z => decimal z
  | None => "NaN"
  end.

(** ** The key/sort-key store *)

(** The store is a hosted service that the handlers reach through the AWS
    SDK; none of its code is in the repository.  Its three operations are
    modelled below after the specification: rows keyed by (partition key,
    sort key), attribute values [{S: string}] and [{N: numeric-string}],
    a put that creates or overwrites, a query by partition in sort-key
    order, and a delete by key with an optional condition on the row. *)

(** Attribute values as the handlers build them, [{S: v}] and [{N: v}], with
    whatever value the request body held. *)
Inductive AttributeValue : Type :=
| AV_S (v : JSValue)
| AV_N (v : JSValue).

(** Attribute values as the store keeps and returns them. *)
Inductive AttrValue : Type :=
| StrV (s : string)
| NumV (z : Z).

Global Instance AttrValue_eq_dec : EqDecision AttrValue.
Proof. solve_decision. Defined.

(** [.N] of a returned attribute. *)
Definition attr_N (a : AttrValue) : option string :=
  match a with NumV z => Some (decimal z) | StrV _ => None end.

(** [item.a.N] of a returned row. *)
Definition get_N (a : string) (item : gmap string AttrValue) : option string :=
  item !! a ≫= attr_N.

Inductive StoreError : Type :=
| InvalidParameterType             (* the SDK refuses a non-string S or N *)
| MultipleValidationErrors         (* the SDK refuses several of them *)
| ValidationException              (* the store refuses the request *)
| ResourceNotFoundException        (* no such table *)
| ConditionalCheckFailedException  (* an Expected clause does not hold *)
| ServiceFailure (code : string).  (* network, throttling, credentials, ... *)

Abbreviation Item := (gmap string AttrValue).
Abbreviation Table := (gmap (string * Z) (gmap string AttrValue)).

Record KeySchema : Type := mkSchema { hashKey : string; rangeKey : string }.

Record Database : Type := mkDatabase { news : Table; scores : Table }.

Definition NEWS_TABLE : string := "UWS-MobileGameDevNews".
Definition SCORES_TABLE : string := "UWS-MobileGameDevScores".

(** Modelled from the spec: the key schema of the two tables, which are
    created outside the repository (section 6, external store schema).
    Both tables have partition key [Service] (a string); the sort key is
    [PostID] in the news table and [Highscore] in the scores table (numbers). *)
Definition find_table (name : string) (db : Database) : option (KeySchema * Table) :=
  if String.eqb name NEWS_TABLE then Some (mkSchema "Service" "PostID", news db)
  else if String.eqb name SCORES_TABLE then Some (mkSchema "Service" "Highscore", scores db)
  else None.

Definition store_table (name : string) (t : Table) (db : Database) : Database :=
  if String.eqb name NEWS_TABLE then mkDatabase t (scores db)
  else if String.eqb name SCORES_TABLE then mkDatabase (news db) t
  else db.

(** Modelled from the spec: attribute values are [{S: string}] or
    [{N: numeric-string}] (section 6).
    What the store makes of one attribute: a string under [S], a numeral
    under [N].  A value that is not a string does not get this far, the SDK
    refuses it first ([param_check] below).  The sort keys of the tables
    are integers (section 3), so a numeral that denotes no integer is outside
    what the tables here can hold and is taken as refused; the properties
    below say nothing about such numerals. *)
Definition check_attr (a : AttributeValue) : StoreError + AttrValue :=
  match a with
  | AV_S (JString s) => inr (StrV s)
  | AV_N (JString s) =>
      match parse_decimal s with
      | Some z => inr (NumV z)
      | None => inl ValidationException
      end
  | _ => inl InvalidParameterType
  end.

Fixpoint check_item (l : list (string * AttributeValue)) : StoreError + Item :=
  match l with
  | [] => inr ∅
  | (k, a) :: rest =>
      match check_attr a with
      | inl e => inl e
      | inr v =>
          match check_item rest with
          | inl e => inl e
          | inr m => inr (<[k := v]> m)
          end
      end
  end.

Definition key_of (sch : KeySchema) (item : Item) : option (string * Z) :=
  match item !! hashKey sch, item !! rangeKey sch with
  | Some (StrV s), Some (NumV z) => Some (s, z)
  | _, _ => None
  end.

(** A row is kept under its key without the two key attributes; they are put
    back when the row is read. *)
Definition strip (sch : KeySchema) (item : Item) : Item :=
  delete (hashKey sch) (delete (rangeKey sch) item).

Definition render (sch : KeySchema) (k : string * Z) (row : Item) : Item :=
  <[hashKey sch := StrV k.1]> (<[rangeKey sch := NumV k.2]> row).

Module PutItemInput.
Record t : Type := mk {
  TableName : string;
  Item : list (string * AttributeValue)
}.
End PutItemInput.

(** Modelled from the spec: the put operation of the external store; a row
    with the same composite key is overwritten (sections 3 and 4.3).
    PutItem creates the row or replaces the one under the same key. *)
Definition putItem (p : PutItemInput.t) (db : Database) : StoreError + Database :=
  match find_table (PutItemInput.TableName p) db with
  | None => inl ResourceNotFoundException
  | Some (sch, t) =>
      match check_item (PutItemInput.Item p) with
      | inl e => inl e
      | inr item =>
          match key_of sch item with
          | None => inl ValidationException
          | Some k =>
              inr (store_table (PutItemInput.TableName p)
                     (<[k := strip sch item]> t) db)
          end
      end
  end.

Inductive Comparison : Type := EQ | LE | LT | GE | GT.

Definition compare_with (op : Comparison) (bound z : Z) : bool :=
  match op with
  | EQ => z =? bound
  | LE => z <=? bound
  | LT => z <? bound
  | GE => bound <=? z
  | GT => bound <? z
  end.

Record Condition : Type := mkCondition {
  ComparisonOperator : Comparison;
  AttributeValueList : list AttributeValue
}.

Module QueryInput.
Record t : Type := mk {
  TableName : string;
  KeyConditions : list (string * Condition);
  AttributesToGet : list string;
  ScanIndexForward : bool;
  Limit : option nat
}.
End QueryInput.

Record QueryOutput : Type := mkQueryOutput {
  Items : list Item;
  Count : nat
}.

Fixpoint assoc {A : Type} (k : string) (l : list (string * A)) : option A :=
  match l with
  | [] => None
  | (k', a) :: rest => if String.eqb k k' then Some a else assoc k rest
  end.

(** The partition key takes an equality test against one string. *)
Definition hash_condition (sch : KeySchema) (conds : list (string * Condition))
  : StoreError + string :=
  match assoc (hashKey sch) conds with
  | Some (mkCondition EQ [a]) =>
      match check_attr a with
      | inl e => inl e
      | inr (StrV s) => inr s
      | inr (NumV _) => inl ValidationException
      end
  | _ => inl ValidationException
  end.

(** The sort key takes at most one comparison against one number. *)
Definition range_condition (sch : KeySchema) (conds : list (string * Condition))
  : StoreError + (Z → bool) :=
  match assoc (rangeKey sch) conds with
  | None => inr (λ _, true)
  | Some (mkCondition op [a]) =>
      match check_attr a with
      | inl e => inl e
      | inr (NumV bound) => inr (compare_with op bound)
      | inr (StrV _) => inl ValidationException
      end
  | Some _ => inl ValidationException
  end.

Definition key_le : relation ((string * Z) * Item) := λ a b, a.1.2 ≤ b.1.2.
Definition key_ge : relation ((string * Z) * Item) := λ a b, b.1.2 ≤ a.1.2.

Global Instance key_le_dec : RelDecision key_le.
Proof. intros a b. unfold key_le. apply _. Defined.
Global Instance key_ge_dec : RelDecision key_ge.
Proof. intros a b. unfold key_ge. apply _. Defined.

(** Rows of one partition come back ordered by sort key, ascending when
    [ScanIndexForward] holds and descending otherwise. *)
Definition scan (forward : bool) (rows : list ((string * Z) * Item))
  : list ((string * Z) * Item) :=
  if forward then merge_sort key_le rows else merge_sort key_ge rows.

Definition matching (h : string) (r : Z → bool) (t : Table)
  : list ((string * Z) * Item) :=
  filter (λ kv, kv.1.1 = h ∧ r kv.1.2 = true) (map_to_list t).

Definition limit_to {A : Type} (n : option nat) (l : list A) : list A :=
  match n with
  | Some n => take n l
  | None => l
  end.

Definition project (attrs : list string) (item : Item) : Item :=
  filter (λ kv, kv.1 ∈ attrs) item.

(** Modelled from the spec: the store answers a query with one page and cuts
    what lies beyond its per-query limit (sections 4.2 and 9).  The limit of
    the hosted store is on the volume of data, 1 MB; the sizes of rows are
    not modelled, so the cut is placed at [PAGE_ROWS] rows, more than a page
    of 1 MB can hold: what is cut here is cut by the store too, and the
    store may cut sooner. *)
Definition PAGE_ROWS : N := 1048576.

Fixpoint first_rows {A : Type} (budget : N) (l : list A) : list A :=
  match l with
  | [] => []
  | x :: l' => if (budget =? 0)%N then [] else x :: first_rows (N.pred budget) l'
  end.

(** Modelled from the spec: the query operation of the external store, by
    partition key and a condition on the sort key, in sort-key order, with an
    optional limit on the number of rows (sections 4.1 to 4.3), cut at the
    page of the store. *)
Definition query (p : QueryInput.t) (db : Database) : StoreError + QueryOutput :=
  match find_table (QueryInput.TableName p) db with
  | None => inl ResourceNotFoundException
  | Some (sch, t) =>
      match hash_condition sch (QueryInput.KeyConditions p) with
      | inl e => inl e
      | inr h =>
          match range_condition sch (QueryInput.KeyConditions p) with
          | inl e => inl e
          | inr r =>
              let rows :=
                limit_to (QueryInput.Limit p)
                  (first_rows PAGE_ROWS
                     (scan (QueryInput.ScanIndexForward p) (matching h r t))) in
              let items :=
                (λ kv, project (QueryInput.AttributesToGet p) (render sch kv.1 kv.2))
                  <$> rows in
              inr (mkQueryOutput items (length items))
          end
      end
  end.

Record ExpectedAttributeValue : Type := mkExpected {
  Exists : bool;
  Value : option AttributeValue
}.

Module DeleteItemInput.
Record t : Type := mk {
  TableName : string;
  Key : list (string * AttributeValue);
  Expected : list (string * ExpectedAttributeValue)
}.
End DeleteItemInput.

(** One Expected clause against the row now under the key ([None] when there
    is none): [Exists: true] with a value asks for an attribute equal to it,
    [Exists: false] for an absent attribute. *)
Definition expectation (current : option Item) (c : string * ExpectedAttributeValue)
  : StoreError + bool :=
  match Exists c.2, Value c.2 with
  | true, Some a =>
      match check_attr a with
      | inl e => inl e
      | inr v => inr (bool_decide (current ≫= lookup c.1 = Some v))
      end
  | false, None => inr (bool_decide (current ≫= lookup c.1 = None))
  | _, _ => inl ValidationException
  end.

Fixpoint expectations (current : option Item)
    (l : list (string * ExpectedAttributeValue)) : StoreError + bool :=
  match l with
  | [] => inr true
  | c :: rest =>
      match expectation current c with
      | inl e => inl e
      | inr b =>
          match expectations current rest with
          | inl e => inl e
          | inr b' => inr (b && b')
          end
      end
  end.

(** Modelled from the spec: the delete operation of the external store, by
    exact composite key regardless of prior existence, and the conditional
    delete, which succeeds only if an attribute of the existing row matches
    the expected value (sections 4.2, 4.3 and the glossary).
    DeleteItem removes the row under the key; deleting a key that holds no
    row is a success too.  With Expected clauses the row is removed only when
    they all hold, and the call fails otherwise. *)
Definition deleteItem (p : DeleteItemInput.t) (db : Database) : StoreError + Database :=
  match find_table (DeleteItemInput.TableName p) db with
  | None => inl ResourceNotFoundException
  | Some (sch, t) =>
      match check_item (DeleteItemInput.Key p) with
      | inl e => inl e
      | inr key =>
          match key_of sch key with
          | None => inl ValidationException
          | Some k =>
              match expectations (render sch k <$> t !! k) (DeleteItemInput.Expected p) with
              | inl e => inl e
              | inr false => inl ConditionalCheckFailedException
              | inr true =>
                  inr (store_table (DeleteItemInput.TableName p) (delete k t) db)
              end
          end
      end
  end.

(** ** The world a handler runs in *)

(** What [res.json] is given: [{"msg": text}], [{"msg": err}] or the array of
    rows a query returned. *)
Inductive Json : Type :=
| JsonMsg (text : string)
| JsonMsgErr (err : StoreError)
| JsonItems (items : list Item).

Inductive StoreCall : Type :=
| CallQuery (p : QueryInput.t)
| CallPutItem (p : PutItemInput.t)
| CallDeleteItem (p : DeleteItemInput.t).

(** [network] lists, for the calls to come, what the network reports: [None]
    when the call reaches the store, [Some err] when it fails before; calls
    beyond the list reach the store.  [calls] and [responses] grow at the
    head.  [sessionPosts] is the counter of the score API object. *)
Record World : Type := mkWorld {
  db : Database;
  network : list (option StoreError);
  calls : list StoreCall;
  responses : list Json;
  console : list StoreError;
  uncaught : list string;
  sessionPosts : nat
}.

Definition set_db (d : Database) (w : World) : World :=
  mkWorld d (network w) (calls w) (responses w) (console w) (uncaught w) (sessionPosts w).

Definition set_network (n : list (option StoreError)) (w : World) : World :=
  mkWorld (db w) n (calls w) (responses w) (console w) (uncaught w) (sessionPosts w).

Definition record_call (c : StoreCall) (w : World) : World :=
  mkWorld (db w) (network w) (c :: calls w) (responses w) (console w) (uncaught w)
    (sessionPosts w).

(** [res.json(j)] *)
Definition res_json (j : Json) (w : World) : World :=
  mkWorld (db w) (network w) (calls w) (j :: responses w) (console w) (uncaught w)
    (sessionPosts w).

(** [console.log(err)] *)
Definition console_log (e : StoreError) (w : World) : World :=
  mkWorld (db w) (network w) (calls w) (responses w) (e :: console w) (uncaught w)
    (sessionPosts w).

Definition throw (e : string) (w : World) : World :=
  mkWorld (db w) (network w) (calls w) (responses w) (console w) (e :: uncaught w)
    (sessionPosts w).

(** [this.sessionPosts++] *)
Definition count_post (w : World) : World :=
  mkWorld (db w) (network w) (calls w) (responses w) (console w) (uncaught w)
    (S (sessionPosts w)).

(** The arguments [(err, data)] of an SDK callback. *)
Inductive Reply (A : Type) : Type :=
| Failed (err : StoreError)
| Succeeded (data : A).

Arguments Failed {A} err.
Arguments Succeeded {A} data.

(** The values the SDK type-checks before it sends a call: everything under
    an [S] or an [N] has to be a string. *)
Definition well_typed (a : AttributeValue) : bool :=
  match a with
  | AV_S (JString _) | AV_N (JString _) => true
  | _ => false
  end.

Definition attributes_of (c : StoreCall) : list AttributeValue :=
  match c with
  | CallQuery p =>
      concat (AttributeValueList <$> (QueryInput.KeyConditions p).*2)
  | CallPutItem p => (PutItemInput.Item p).*2
  | CallDeleteItem p =>
      (DeleteItemInput.Key p).*2 ++ omap Value (DeleteItemInput.Expected p).*2
  end.

(** The SDK refuses a call with an ill-typed value without sending it: with
    the error of that value when there is one, with a collective error when
    there are several. *)
Definition param_check (c : StoreCall) : option StoreError :=
  match List.filter (λ a, negb (well_typed a)) (attributes_of c) with
  | [] => None
  | [_] => Some InvalidParameterType
  | _ => Some MultipleValidationErrors
  end.

(** One call of the SDK: the call is made and type-checked; if it passes,
    it is sent, the network has its say, the store runs the operation, and
    the callback gets the error or the data.  A call the SDK refuses never
    goes on the network. *)
Definition dynamodb_call {A : Type} (c : StoreCall)
    (op : Database → StoreError + (A * Database))
    (callback : Reply A → World → World) (w : World) : World :=
  let w1 := record_call c w in
  match param_check c with
  | Some err => callback (Failed err) w1
  | None =>
      let w2 := set_network (tail (network w1)) w1 in
      match head (network w1) with
      | Some (Some err) => callback (Failed err) w2
      | _ =>
          match op (db w2) with
          | inl err => callback (Failed err) w2
          | inr (data, d) => callback (Succeeded data) (set_db d w2)
          end
      end
  end.

Definition with_data {A B : Type} (f : A → B) (r : StoreError + A) : StoreError + B :=
  match r with
  | inl e => inl e
  | inr a => inr (f a)
  end.

(** [this.dynamodb.query(data, callback)] and its two siblings. *)
Definition dynamodb_query (p : QueryInput.t)
    (callback : Reply QueryOutput → World → World) : World → World :=
  dynamodb_call (CallQuery p) (λ d, with_data (λ out, (out, d)) (query p d)) callback.

Definition dynamodb_putItem (p : PutItemInput.t)
    (callback : Reply unit → World → World) : World → World :=
  dynamodb_call (CallPutItem p) (λ d, with_data (λ d', (tt, d')) (putItem p d)) callback.

Definition dynamodb_deleteItem (p : DeleteItemInput.t)
    (callback : Reply unit → World → World) : World → World :=
  dynamodb_call (CallDeleteItem p) (λ d, with_data (λ d', (tt, d')) (deleteItem p d))
    callback.

(** ** Requests *)

(** [server.js] installs [body_parser.json()] ahead of the two routers, so
    [req.body] is an object in every handler; its fields are the members of
    the JSON body. *)
Record Request : Type := mkRequest { body : gmap string JSValue }.

(** [req.body] as a value, and [req.body.f]. *)
Definition body_value (req : Request) : JSValue := JObject.

Definition field (req : Request) (f : string) : JSValue :=
  default JUndefined (body req !! f).

(** ** news_api.js *)

Module API_News.

(** [API_News.prototype.getPostID] *)
Definition getPostID (version : JSValue) (callback : string → World → World)
  : World → World :=
  let data :=
    QueryInput.mk NEWS_TABLE
      [("Service", mkCondition EQ [AV_S version]);
       ("PostID", mkCondition GE [AV_N (JString "0")])]
      ["PostID"]
      false
      None in
  dynamodb_query data (λ reply,
    match reply with
    | Failed err => console_log err
    | Succeeded news =>
        if (Count news =? 0)%nat then callback "0"
        else
          match head (Items news) ≫= get_N "PostID" with
          | Some n =>
              let ID := Number n in
              callback (toString (increment ID))
          | None => throw "TypeError"
          end
    end).

(** [API_News.prototype.handleNewsPost] *)
Definition handleNewsPost (req : Request) : World → World :=
  if truthy (body_value req &&& field req "heading" &&& field req "service"
             &&& field req "text")
  then
    getPostID (field req "service") (λ postNumber,
      let params :=
        PutItemInput.mk NEWS_TABLE
          [("Heading", AV_S (field req "heading"));
           ("PostID", AV_N (JString postNumber));
           ("Service", AV_S (field req "service"));
           ("Text", AV_S (field req "text"))] in
      dynamodb_putItem params (λ reply,
        match reply with
        | Failed err => λ w, res_json (JsonMsgErr err) (console_log err w)
        | Succeeded _ => res_json (JsonMsg "News Posted")
        end))
  else res_json (JsonMsg "Didnt provide all information needed").

(** [API_News.prototype.handleListNews] *)
Definition handleListNews (req : Request) : World → World :=
  let data :=
    QueryInput.mk NEWS_TABLE
      [("Service", mkCondition EQ [AV_S (JString "VERSION1")]);
       ("PostID", mkCondition GE [AV_N (JString "0")])]
      ["Heading"; "PostID"; "Text"; "Service"]
      false
      None in
  dynamodb_query data (λ reply,
    match reply with
    | Failed err => console_log err
    | Succeeded news => res_json (JsonItems (Items news))
    end).

(** [API_News.prototype.handleDeleteRequest] *)
Definition handleDeleteRequest (req : Request) : World → World :=
  if truthy (field req "service" &&& field req "postID")
  then
    let params :=
      DeleteItemInput.mk NEWS_TABLE
        [("Service", AV_S (field req "service"));
         ("PostID", AV_N (field req "postID"))]
        [] in
    dynamodb_deleteItem params (λ reply,
      match reply with
      | Failed err => res_json (JsonMsgErr err)
      | Succeeded _ => res_json (JsonMsg "item deleted successful")
      end)
  else res_json (JsonMsg "invalid request").

End API_News.

(** ** score_api.js *)

Module API_Score.

(** [API_Score.prototype.handleGetScores] *)
Definition handleGetScores (req : Request) : World → World :=
  let data :=
    QueryInput.mk SCORES_TABLE
      [("Service", mkCondition EQ [AV_S (JString "VERSION1")]);
       ("Highscore", mkCondition GE [AV_N (JString "0")])]
      ["Service"; "Highscore"; "Name"]
      false
      (Some 5%nat) in
  dynamodb_query data (λ reply,
    match reply with
    | Failed err => console_log err
    | Succeeded news => res_json (JsonItems (Items news))
    end).

(** [API_Score.prototype.handleScorePost] *)
Definition handleScorePost (req : Request) : World → World :=
  if truthy (body_value req &&& field req "service" &&& field req "highscore"
             &&& field req "name")
  then
    let params :=
      PutItemInput.mk SCORES_TABLE
        [("Service", AV_S (field req "service"));
         ("Highscore", AV_N (field req "highscore"));
         ("Name", AV_S (field req "name"))] in
    λ w,
      dynamodb_putItem params (λ reply,
        match reply with
        | Failed err => λ w', res_json (JsonMsg "Score Post Failed") (console_log err w')
        | Succeeded _ => res_json (JsonMsg "Score Posted")
        end) (count_post w)
  else res_json (JsonMsg "Invalid params").

(** [API_Score.prototype.handleDeleteRequest] *)
Definition handleDeleteRequest (req : Request) : World → World :=
  if truthy (body_value req &&& field req "service" &&& field req "name"
             &&& field req "highscore")
  then
    let params :=
      DeleteItemInput.mk SCORES_TABLE
        [("Service", AV_S (field req "service"));
         ("Highscore", AV_N (field req "highscore"))]
        [("Name", mkExpected true (Some (AV_S (field req "name"))))] in
    dynamodb_deleteItem params (λ reply,
      match reply with
      | Failed err => res_json (JsonMsgErr err)
      | Succeeded _ => res_json (JsonMsg "item deleted successful")
      end)
  else res_json (JsonMsg "invalid request").

End API_Score.

(** ** server.js *)

Record Server : Type := mkServer { name : string; portNumber : Z }.

(** [function Server(serverName)] *)
Definition new_Server (serverName : string) : Server := mkServer serverName 3000.

(** [Server.prototype.setListeningPort]: the test reads the port the object
    holds, [this.portNumber], and not the argument. *)
Definition setListeningPort (portNumber' : Z) (this : Server) : Server :=
  if 2000 <=? portNumber this
  then mkServer (name this) portNumber'
  else mkServer (name this) 3000.

(** The last three lines of the file, up to the call of [start], which
    listens on [this.portNumber]. *)
Definition startup : Server :=
  let server := new_Server "MobileGameDev Server" in
  setListeningPort 3005 server.

(** ** The routes *)

(** The routes that [setup] registers in the two API files, under the mount
    points [/news/] and [/score/] of [server.js]. *)
Inductive Route : Type :=
| PostNews       (* POST /news/postNews/ *)
| GetNews        (* GET /news/getNews/ *)
| DeleteNews     (* POST /news/deleteNews/ *)
| PostScore      (* POST /score/postScore/ *)
| GetScores      (* GET /score/getScores/ *)
| DeleteScore.   (* POST /score/deleteScore/ *)

Definition dispatch (r : Route) : Request → World → World :=
  match r with
  | PostNews => API_News.handleNewsPost
  | GetNews => API_News.handleListNews
  | DeleteNews => API_News.handleDeleteRequest
  | PostScore => API_Score.handleScorePost
  | GetScores => API_Score.handleGetScores
  | DeleteScore => API_Score.handleDeleteRequest
  end.

(** The body fields each route tests before it does anything, and the message
    its [else] branch sends. *)
Definition required (r : Route) : list string :=
  match r with
  | PostNews => ["heading"; "service"; "text"]
  | DeleteNews => ["service"; "postID"]
  | PostScore => ["service"; "highscore"; "name"]
  | DeleteScore => ["service"; "name"; "highscore"]
  | GetNews | GetScores => []
  end.

Definition refusal (r : Route) : string :=
  match r with
  | PostNews => "Didnt provide all information needed"
  | PostScore => "Invalid params"
  | DeleteNews | DeleteScore => "invalid request"
  | GetNews | GetScores => EmptyString
  end.

(** ** Properties used below *)

(** The first [n] calls to come reach the store. *)
Definition reaches_store (n : nat) (w : World) : Prop :=
  Forall (λ o, o = None) (take n (network w)).

(** The world right after a call was issued and went through the network. *)
Definition issued (c : StoreCall) (w : World) : World :=
  set_network (tail (network w)) (record_call c w).

(** The world right after a call that failed: the call was made, and it used
    up the next outcome of the network unless the SDK refused to send it. *)
Definition failed_call (c : StoreCall) (w : World) : World :=
  mkWorld (db w) (if param_check c is Some _ then network w else tail (network w))
    (c :: calls w) (responses w) (console w) (uncaught w) (sessionPosts w).

(** The error a call meets before it reaches the store, if it meets one: the
    SDK's when it refuses the call, and else the one of the network. *)
Definition call_error (c : StoreCall) (w : World) : option StoreError :=
  match param_check c with
  | Some err => Some err
  | None =>
      match head (network w) with
      | Some (Some err) => Some err
      | _ => None
      end
  end.

(** Every stored post identifier is a non-negative integer that a JavaScript
    number holds exactly. *)
Definition safe_ids (t : Table) : Prop :=
  ∀ s z, is_Some (t !! (s, z)) → 0 ≤ z ≤ MAX_SAFE_INTEGER.

Definition nonneg_ids (t : Table) : Prop :=
  ∀ s z, is_Some (t !! (s, z)) → 0 ≤ z.

(** [m] is the highest sort key stored in partition [s]. *)
Definition highest (s : string) (t : Table) (m : Z) : Prop :=
  is_Some (t !! (s, m)) ∧ ∀ z, is_Some (t !! (s, z)) → z ≤ m.

Definition empty_partition (s : string) (t : Table) : Prop :=
  ∀ z, t !! (s, z) = None.

Definition key_gt : relation ((string * Z) * Item) := λ a b, b.1.2 < a.1.2.

(** ** Derived notions and examples *)

(** What a descending query with the conditions [Service = h] and
    [sort key >= 0] answers. *)
Definition answer (sch : KeySchema) (attrs : list string) (lim : option nat)
    (h : string) (t : Table) : QueryOutput :=
  let items :=
    (λ kv, project attrs (render sch kv.1 kv.2))
      <$> limit_to lim
            (first_rows PAGE_ROWS (scan false (matching h (compare_with GE 0) t))) in
  mkQueryOutput items (length items).

(** The number of rows an answer can hold: the page, and the limit asked
    for if there is one. *)
Definition capacity (lim : option nat) : nat :=
  match lim with
  | Some n => n `min` N.to_nat PAGE_ROWS
  | None => N.to_nat PAGE_ROWS
  end.

(** Read off the code: 0 on an empty answer, and else the number in the
    first row, read as a JavaScript number and incremented. *)
Definition next_id (version : string) (t : Table) : Z :=
  match scan false (matching version (compare_with GE 0) t) with
  | [] => 0
  | kv :: _ => to_double (to_double kv.1.2 + 1)
  end.

(** The row [handleNewsPost] writes, without its key. *)
Definition news_row (heading text : string) : Item :=
  <["Heading" := StrV heading]> (<["Text" := StrV text]> ∅).

(** The row [handleScorePost] writes, without its key. *)
Definition score_row (player : string) : Item := <["Name" := StrV player]> ∅.

(** The player name stored under a key, if any. *)
Definition name_at (t : Table) (k : string * Z) : option AttrValue :=
  t !! k ≫= lookup "Name".

Definition descending (l : list Z) : Prop := StronglySorted (λ a b, b < a) l.

(** The returned row [it] is the stored row of partition [h] with sort key
    [z], with its key attributes and the requested other attributes. *)
Definition shows (sch : KeySchema) (attrs : list string) (h : string) (t : Table)
    (it : Item) (z : Z) : Prop :=
  it !! hashKey sch = Some (StrV h) ∧
  it !! rangeKey sch = Some (NumV z) ∧
  0 ≤ z ∧
  ∃ row, t !! (h, z) = Some row ∧
    ∀ a, a ∈ attrs → a ≠ hashKey sch → a ≠ rangeKey sch → it !! a = row !! a.

(** Requests served one after the other. *)
Definition serve (l : list (Route * Request)) (w : World) : World :=
  foldl (λ w' rr, dispatch rr.1 rr.2 w') w l.

Definition empty_world : World := mkWorld (mkDatabase ∅ ∅) [] [] [] [] [] 0.

Definition request (l : list (string * JSValue)) : Request :=
  mkRequest (list_to_map l).

(** Two posts in partition "VERSION1", with identifiers 0 and 1. *)
Definition two_posts : World :=
  mkWorld
    (mkDatabase
       (<[("VERSION1", 1) := news_row "Patch" "Fixed bugs"]>
          (<[("VERSION1", 0) := news_row "Launch" "The game is out"]> ∅))
       ∅)
    [] [] [] [] [] 0.

(** One score in partition "VERSION1": Bob at 100. *)
Definition bob_at_100 : World :=
  mkWorld (mkDatabase ∅ (<[("VERSION1", 100) := score_row "Bob"]> ∅)) [] [] [] [] [] 0.

Definition post_without_text : Request :=
  request [("service", JString "VERSION1"); ("heading", JString "Patch")].

Definition delete_id_number_zero : Request :=
  request [("service", JString "VERSION1"); ("postID", JNumber 0)].

Definition delete_id_7 : Request :=
  request [("service", JString "VERSION1"); ("postID", JString "7")].

Definition score_request (highscore player : string) : Request :=
  request [("service", JString "VERSION1"); ("highscore", JString highscore);
           ("name", JString player)].

(** The delete of post 7 and the delete of Bob's score at 100, with the
    number sent as a JSON number. *)
Definition delete_id_number_7 : Request :=
  request [("service", JString "VERSION1"); ("postID", JNumber 7)].

Definition delete_bob_number_100 : Request :=
  request [("service", JString "VERSION1"); ("highscore", JNumber 100);
           ("name", JString "Bob")].



(** ** Notions for the further properties *)

(** The test a route makes on the body before it does anything: every field
    of [required] is truthy. *)
Definition validated (r : Route) (req : Request) : bool :=
  forallb (λ f, truthy (field req f)) (required r).

Global Instance Route_eq_dec : EqDecision Route.
Proof. solve_decision. Defined.

(** The parameters the two writing handlers of [news_api.js] and the two of
    [score_api.js] hand to the SDK. *)
Definition news_put_params (req : Request) (postNumber : string) : PutItemInput.t :=
  PutItemInput.mk NEWS_TABLE
    [("Heading", AV_S (field req "heading"));
     ("PostID", AV_N (JString postNumber));
     ("Service", AV_S (field req "service"));
     ("Text", AV_S (field req "text"))].

Definition news_delete_params (req : Request) : DeleteItemInput.t :=
  DeleteItemInput.mk NEWS_TABLE
    [("Service", AV_S (field req "service"));
     ("PostID", AV_N (field req "postID"))]
    [].

Definition score_put_params (req : Request) : PutItemInput.t :=
  PutItemInput.mk SCORES_TABLE
    [("Service", AV_S (field req "service"));
     ("Highscore", AV_N (field req "highscore"));
     ("Name", AV_S (field req "name"))].

Definition score_delete_params (req : Request) : DeleteItemInput.t :=
  DeleteItemInput.mk SCORES_TABLE
    [("Service", AV_S (field req "service"));
     ("Highscore", AV_N (field req "highscore"))]
    [("Name", mkExpected true (Some (AV_S (field req "name"))))].

(** The parameters of the three queries. *)
Definition news_id_query (version : JSValue) : QueryInput.t :=
  QueryInput.mk NEWS_TABLE
    [("Service", mkCondition EQ [AV_S version]);
     ("PostID", mkCondition GE [AV_N (JString "0")])]
    ["PostID"] false None.

Definition news_list_query : QueryInput.t :=
  QueryInput.mk NEWS_TABLE
    [("Service", mkCondition EQ [AV_S (JString "VERSION1")]);
     ("PostID", mkCondition GE [AV_N (JString "0")])]
    ["Heading"; "PostID"; "Text"; "Service"] false None.

Definition top_scores_query : QueryInput.t :=
  QueryInput.mk SCORES_TABLE
    [("Service", mkCondition EQ [AV_S (JString "VERSION1")]);
     ("Highscore", mkCondition GE [AV_N (JString "0")])]
    ["Service"; "Highscore"; "Name"] false (Some 5%nat).

(** The call a route makes first, once the request passed the test on the
    body. *)
Definition first_call (r : Route) (req : Request) : StoreCall :=
  match r with
  | PostNews => CallQuery (news_id_query (field req "service"))
  | GetNews => CallQuery news_list_query
  | DeleteNews => CallDeleteItem (news_delete_params req)
  | PostScore => CallPutItem (score_put_params req)
  | GetScores => CallQuery top_scores_query
  | DeleteScore => CallDeleteItem (score_delete_params req)
  end.

(** The error that leaves a request unanswered: the one its query meets, on
    the three routes that query. *)
Definition query_error (r : Route) (req : Request) (w : World) : option StoreError :=
  match r with
  | PostNews | GetNews | GetScores =>
      if validated r req then call_error (first_call r req) w else None
  | _ => None
  end.



(** A world whose store holds [d] and whose network reports [net]. *)
Definition world_of (d : Database) (net : list (option StoreError)) : World :=
  mkWorld d net [] [] [] [] 0.

Definition news_request (service heading text : string) : Request :=
  request [("service", JString service); ("heading", JString heading);
           ("text", JString text)].

Definition NetworkingError : StoreError := ServiceFailure "NetworkingError".

(** The store of [two_posts] and of [bob_at_100] behind a network that fails
    the next call, and behind one that lets a call through and fails the
    one after. *)
Definition two_posts_offline : World :=
  world_of (db two_posts) [Some NetworkingError].

Definition bob_offline : World :=
  world_of (db bob_at_100) [Some NetworkingError].

Definition two_posts_put_fails : World :=
  world_of (db two_posts) [None; Some NetworkingError].

(** [two_posts] with one more post, for another service. *)
Definition two_posts_and_another_service : World :=
  world_of
    (mkDatabase
       (<[("VERSION2", 0) := news_row "Beta" "Try the beta"]> (news (db two_posts)))
       ∅)
    [].

(** [bob_at_100] with one more score, for another service. *)
Definition bob_and_another_service : World :=
  world_of
    (mkDatabase ∅
       (<[("VERSION2", 900) := score_row "Carol"]> (scores (db bob_at_100))))
    [].

(** One post, with the identifier 2^53. *)
Definition post_at_2_53 : World :=
  world_of
    (mkDatabase (<[("VERSION1", 2 ^ 53) := news_row "Last" "No more room"]> ∅) ∅)
    [].

Definition score_with_number : Request :=
  request [("service", JString "VERSION1"); ("highscore", JNumber 100);
           ("name", JString "Alice")].

Definition news_with_number_service : Request :=
  request [("service", JNumber 1); ("heading", JString "Patch");
           ("text", JString "Fixed bugs")].

(** * Lemmas *)

(** ** Numbers *)

Lemma plain_integer_decimal (z : Z) : plain_integer (decimal z) = Some z.
Proof.
  unfold plain_integer, decimal.
  rewrite NilZero.isi.
  - simpl. f_equal. apply DecimalZ.of_to.
  - destruct z; simpl; try discriminate.
    intros [= H]. by apply Unsigned.to_uint_nonnil in H.
  - destruct z; simpl; try discriminate.
    intros [= H]. by apply Unsigned.to_uint_nonnil in H.
Qed.

Lemma parse_decimal_decimal (z : Z) : parse_decimal (decimal z) = Some z.
Proof. unfold parse_decimal. by rewrite plain_integer_decimal. Qed.

Lemma parse_decimal_plain (s : string) (z : Z) :
  plain_integer s = Some z → parse_decimal s = Some z.
Proof. unfold parse_decimal. by intros ->. Qed.

Lemma to_double_exact (z : Z) : 0 ≤ z ≤ MAX_SAFE_INTEGER + 1 → to_double z = z.
Proof.
  unfold MAX_SAFE_INTEGER. intros [Hlo Hhi].
  destruct (decide (z = 2 ^ 53)) as [-> | Hne]; [by vm_compute |].
  unfold to_double.
  destruct (decide (z = 0)) as [-> | Hz]; [done |].
  assert (Z.log2 (Z.abs z) < 53) as Hlog.
  { rewrite Z.abs_eq by done. apply Z.log2_lt_pow2; lia. }
  case_match eqn:Heq; [done |].
  apply Z.leb_gt in Heq. lia.
Qed.

Lemma to_double_nonneg (z : Z) : 0 ≤ z → 0 ≤ to_double z.
Proof.
  intros Hz. unfold to_double.
  case_match; [done |].
  assert (0 ≤ Z.abs z ≫ (Z.log2 (Z.abs z) - 52)) as Hq.
  { apply Z.shiftr_nonneg. lia. }
  apply Z.mul_nonneg_nonneg; [lia |].
  apply Z.shiftl_nonneg.
  repeat case_match; lia.
Qed.

Lemma Number_decimal (z : Z) : Number (decimal z) = Some (to_double z).
Proof. unfold Number. by rewrite parse_decimal_decimal. Qed.

(** ** Truthiness *)

Lemma truthy_js_and (a b : JSValue) : truthy (a &&& b) = truthy a && truthy b.
Proof. unfold js_and. by destruct (truthy a) eqn:Ha; rewrite ?Ha. Qed.

Lemma truthy_JString (s : string) : s ≠ EmptyString → truthy (JString s) = true.
Proof. by destruct s. Qed.

Lemma field_missing (req : Request) (f : string) :
  body req !! f = None → field req f = JUndefined.
Proof. unfold field. by intros ->. Qed.

(** ** The store *)

Lemma dynamodb_call_refused {A : Type} (c : StoreCall)
    (op : Database → StoreError + (A * Database))
    (callback : Reply A → World → World) (w : World) err :
  param_check c = Some err →
  dynamodb_call c op callback w = callback (Failed err) (record_call c w).
Proof. unfold dynamodb_call. by intros ->. Qed.

Lemma dynamodb_call_reaches {A : Type} (c : StoreCall)
    (op : Database → StoreError + (A * Database))
    (callback : Reply A → World → World) (w : World) :
  param_check c = None →
  reaches_store 1 w →
  dynamodb_call c op callback w =
    match op (db w) with
    | inl err => callback (Failed err) (issued c w)
    | inr (data, d) => callback (Succeeded data) (set_db d (issued c w))
    end.
Proof.
  unfold reaches_store, dynamodb_call, issued. intros -> H.
  destruct w as [d [| [e |] rest] cs rs con unc sp]; simpl in *; try done.
  by apply Forall_cons in H as [[=] _].
Qed.

Lemma dynamodb_call_fails {A : Type} (c : StoreCall)
    (op : Database → StoreError + (A * Database))
    (callback : Reply A → World → World) (w : World) err rest :
  param_check c = None →
  network w = Some err :: rest →
  dynamodb_call c op callback w = callback (Failed err) (issued c w).
Proof.
  unfold dynamodb_call, issued. intros ->. destruct w; simpl. by intros ->.
Qed.

Lemma dynamodb_call_eq {A : Type} (c : StoreCall)
    (op : Database → StoreError + (A * Database))
    (callback : Reply A → World → World) (w : World) :
  dynamodb_call c op callback w =
    match call_error c w with
    | Some err => callback (Failed err) (failed_call c w)
    | None =>
        match op (db w) with
        | inl err => callback (Failed err) (issued c w)
        | inr (data, d) => callback (Succeeded data) (set_db d (issued c w))
        end
    end.
Proof.
  unfold dynamodb_call, call_error, failed_call, issued.
  destruct (param_check c) as [err |]; [by destruct w |].
  by destruct w as [d [| [e |] rest] cs rs con unc sp].
Qed.

Lemma call_error_count_post (c : StoreCall) (w : World) :
  call_error c (count_post w) = call_error c w.
Proof. done. Qed.

(** ** The page of a query *)

Lemma first_rows_take {A : Type} (budget : N) (l : list A) :
  first_rows budget l = take (N.to_nat budget) l.
Proof.
  revert budget. induction l as [| x l IH]; intros budget; simpl.
  - by rewrite take_nil.
  - destruct (N.eqb_spec budget 0) as [-> | Hne]; [done |].
    rewrite IH.
    replace (N.to_nat budget) with (S (N.to_nat (N.pred budget))) by lia.
    done.
Qed.

Lemma PAGE_ROWS_large : (5 ≤ N.to_nat PAGE_ROWS)%nat.
Proof. unfold PAGE_ROWS. lia. Qed.

Lemma limit_to_first_rows {A : Type} (lim : option nat) (l : list A) :
  limit_to lim (first_rows PAGE_ROWS l) = take (capacity lim) l.
Proof.
  rewrite first_rows_take. unfold limit_to, capacity.
  destruct lim as [n |]; [| done]. by rewrite take_take.
Qed.

Lemma capacity_small (n : nat) : (n ≤ 5)%nat → capacity (Some n) = n.
Proof. pose proof PAGE_ROWS_large. unfold capacity. lia. Qed.


Lemma capacity_page : ∃ n, capacity None = S n.
Proof.
  pose proof PAGE_ROWS_large. unfold capacity.
  destruct (N.to_nat PAGE_ROWS); [lia | eauto].
Qed.

Lemma reaches_store_issued (n : nat) (c : StoreCall) (w : World) :
  reaches_store (S n) w → reaches_store n (issued c w).
Proof.
  unfold reaches_store, issued. destruct w as [d [| o rest] cs rs con unc sp]; simpl.
  - intros _. by rewrite take_nil.
  - by intros [_ ?]%Forall_cons.
Qed.

Lemma reaches_store_le (n m : nat) (w : World) :
  (n ≤ m)%nat → reaches_store m w → reaches_store n w.
Proof.
  unfold reaches_store. intros Hle H.
  replace n with (n `min` m)%nat by lia.
  rewrite <- take_take. by apply Forall_take.
Qed.

Lemma issued_db (c : StoreCall) (w : World) : db (issued c w) = db w.
Proof. done. Qed.

Lemma issued_responses (c : StoreCall) (w : World) :
  responses (issued c w) = responses w.
Proof. done. Qed.

Lemma issued_calls (c : StoreCall) (w : World) : calls (issued c w) = c :: calls w.
Proof. done. Qed.

Lemma query_news (h : string) (attrs : list string) (lim : option nat) (d : Database) :
  query
    (QueryInput.mk NEWS_TABLE
       [("Service", mkCondition EQ [AV_S (JString h)]);
        ("PostID", mkCondition GE [AV_N (JString "0")])]
       attrs false lim) d
  = inr (answer (mkSchema "Service" "PostID") attrs lim h (news d)).
Proof. reflexivity. Qed.

Lemma query_scores (h : string) (attrs : list string) (lim : option nat) (d : Database) :
  query
    (QueryInput.mk SCORES_TABLE
       [("Service", mkCondition EQ [AV_S (JString h)]);
        ("Highscore", mkCondition GE [AV_N (JString "0")])]
       attrs false lim) d
  = inr (answer (mkSchema "Service" "Highscore") attrs lim h (scores d)).
Proof. reflexivity. Qed.

(** ** Rows of a partition in descending order *)

Global Instance key_ge_total : Total key_ge.
Proof. intros a b. unfold key_ge. lia. Qed.

Global Instance key_ge_trans : Transitive key_ge.
Proof. intros a b c. unfold key_ge. lia. Qed.

Lemma elem_of_matching (h : string) (r : Z → bool) (t : Table) k row :
  (k, row) ∈ matching h r t ↔ t !! k = Some row ∧ k.1 = h ∧ r k.2 = true.
Proof.
  unfold matching. rewrite list_elem_of_filter, elem_of_map_to_list. simpl. tauto.
Qed.

Lemma NoDup_matching (h : string) (r : Z → bool) (t : Table) :
  NoDup (matching h r t).*1.
Proof.
  unfold matching.
  assert (∀ l : list ((string * Z) * Item), NoDup l.*1 →
            NoDup (filter (λ kv, kv.1.1 = h ∧ r kv.1.2 = true) l).*1) as Hfilter.
  { induction l as [| x l IH]; [done |].
    rewrite fmap_cons. intros [Hx Hl]%NoDup_cons.
    rewrite filter_cons. case_decide.
    - rewrite fmap_cons. apply NoDup_cons. split; [| by apply IH].
      intros Hin. apply Hx.
      apply list_elem_of_fmap in Hin as (y & -> & Hy).
      apply list_elem_of_filter in Hy as [_ Hy].
      apply list_elem_of_fmap. eauto.
    - by apply IH. }
  apply Hfilter, NoDup_fst_map_to_list.
Qed.

(** Sorted on distinct keys of one partition is strictly sorted. *)
Lemma strictly_descending (h : string) (l : list ((string * Z) * Item)) :
  NoDup l.*1 → Forall (λ kv, kv.1.1 = h) l →
  StronglySorted key_ge l → StronglySorted key_gt l.
Proof.
  induction l as [| x l IH]; [constructor |].
  rewrite fmap_cons.
  intros [Hx Hl]%NoDup_cons [Hhx Hhl]%Forall_cons Hs.
  apply StronglySorted_inv in Hs as [Hs Hge].
  constructor; [by apply IH |].
  rewrite Forall_forall in Hge, Hhl |- *.
  intros y Hy. specialize (Hge y Hy). specialize (Hhl y Hy).
  unfold key_ge in Hge. unfold key_gt.
  destruct (decide (x.1.2 = y.1.2)) as [Heq | Hne]; [| lia].
  exfalso. apply Hx. apply list_elem_of_fmap. exists y. split; [| done].
  destruct x as [[xs xz] xr], y as [[ys yz] yr]; simpl in *. congruence.
Qed.

(** The rows a descending query selects, before they are rendered: strictly
    descending, all of them stored rows of the partition that pass the
    condition on the sort key. *)
Lemma scan_matching (h : string) (r : Z → bool) (t : Table) :
  let rows := scan false (matching h r t) in
  StronglySorted key_gt rows ∧
  ∀ k row, (k, row) ∈ rows ↔ t !! k = Some row ∧ k.1 = h ∧ r k.2 = true.
Proof.
  simpl. unfold scan.
  pose proof (merge_sort_Permutation key_ge (matching h r t)) as Hperm.
  split.
  - apply (strictly_descending h).
    + rewrite Hperm. apply NoDup_matching.
    + rewrite Hperm. apply Forall_forall. intros [k row] Hin.
      apply elem_of_matching in Hin. simpl. tauto.
    + apply StronglySorted_merge_sort; apply _.
  - intros k row. rewrite Hperm. apply elem_of_matching.
Qed.

(** ** Rows as they are returned *)

Lemma lookup_project (attrs : list string) (item : Item) (a : string) :
  a ∈ attrs → project attrs item !! a = item !! a.
Proof.
  intros Ha. unfold project. apply option_eq. intros v.
  rewrite map_lookup_filter_Some. simpl. tauto.
Qed.

Lemma lookup_render_hash (sch : KeySchema) k (row : Item) :
  render sch k row !! hashKey sch = Some (StrV k.1).
Proof. unfold render. apply lookup_insert_eq. Qed.

Lemma lookup_render_range (sch : KeySchema) k (row : Item) :
  hashKey sch ≠ rangeKey sch →
  render sch k row !! rangeKey sch = Some (NumV k.2).
Proof.
  intros Hne. unfold render. rewrite lookup_insert_ne by done. apply lookup_insert_eq.
Qed.

Lemma lookup_render_other (sch : KeySchema) k (row : Item) (a : string) :
  a ≠ hashKey sch → a ≠ rangeKey sch → render sch k row !! a = row !! a.
Proof.
  intros H1 H2. unfold render. by rewrite !lookup_insert_ne.
Qed.

Lemma set_db_issued (c : StoreCall) (w : World) :
  set_db (db w) (issued c w) = issued c w.
Proof. by destruct w. Qed.

(** ** The identifier [getPostID] computes *)

Lemma getPostID_reaches (version : string) (callback : string → World → World)
    (w : World) :
  reaches_store 1 w →
  ∃ c, API_News.getPostID (JString version) callback w
       = callback (decimal (next_id version (news (db w)))) (issued c w).
Proof.
  intros Hnet. eexists. unfold API_News.getPostID, dynamodb_query.
  rewrite dynamodb_call_reaches by done.
  rewrite query_news. unfold with_data, answer, next_id.
  rewrite limit_to_first_rows. destruct capacity_page as [n ->].
  cbv beta iota. rewrite set_db_issued.
  destruct (scan false (matching version (compare_with GE 0) (news (db w))))
    as [| [k row] rows]; [done |].
  cbn [take].
  cbn [fmap list_fmap length Count Items Nat.eqb head mbind option_bind].
  unfold get_N.
  rewrite lookup_project by set_solver.
  rewrite (lookup_render_range (mkSchema "Service" "PostID")) by done.
  cbn [mbind option_bind attr_N fst snd].
  by rewrite Number_decimal.
Qed.

Lemma call_error_None (c : StoreCall) (w : World) :
  call_error c w = None → param_check c = None ∧ reaches_store 1 w.
Proof.
  unfold call_error, reaches_store.
  destruct (param_check c); [done |].
  destruct w as [d [| [e |] rest] cs rs con unc sp];
    cbn [head network take]; try done.
  intros _. split; [done |]. by repeat constructor.
Qed.

Lemma getPostID_error (version : JSValue) (callback : string → World → World)
    (w : World) (err : StoreError) :
  call_error (CallQuery (news_id_query version)) w = Some err →
  API_News.getPostID version callback w
  = console_log err (failed_call (CallQuery (news_id_query version)) w).
Proof.
  intros Herr. unfold API_News.getPostID, dynamodb_query.
  rewrite dynamodb_call_eq. unfold news_id_query in Herr. by rewrite Herr.
Qed.

Lemma getPostID_fails (version : string) (callback : string → World → World)
    (w : World) err rest :
  network w = Some err :: rest →
  ∃ c, API_News.getPostID (JString version) callback w
       = console_log err (issued c w).
Proof.
  intros Hnet. eexists. unfold API_News.getPostID, dynamodb_query.
  by erewrite dynamodb_call_fails.
Qed.

Lemma next_id_empty (s : string) (t : Table) :
  empty_partition s t → next_id s t = 0.
Proof.
  intros Hempty. unfold next_id.
  destruct (scan_matching s (compare_with GE 0) t) as [_ Hin].
  destruct (scan false (matching s (compare_with GE 0) t)) as [| [k row] rows]; [done |].
  destruct (Hin k row) as [Hk _].
  destruct Hk as (Hk & Hs & _); [left |].
  destruct k as [ks kz]. simpl in Hs. subst ks.
  by rewrite Hempty in Hk.
Qed.

Lemma next_id_highest (s : string) (t : Table) (m : Z) :
  safe_ids t → highest s t m → next_id s t = m + 1.
Proof.
  intros Hsafe [[row Hm] Hmax]. unfold next_id.
  destruct (scan_matching s (compare_with GE 0) t) as [Hsorted Hin].
  assert ((s, m, row) ∈ scan false (matching s (compare_with GE 0) t)) as Hrow.
  { apply Hin. split_and!; [done | done |].
    simpl. apply Z.leb_le. apply (Hsafe s m). eauto. }
  destruct (scan false (matching s (compare_with GE 0) t)) as [| [k r] rows];
    [by apply elem_of_nil in Hrow |].
  destruct (Hin k r) as [Hk _].
  destruct Hk as (Hk & Hs & _); [left |].
  destruct k as [ks kz]. simpl in Hs. subst ks. simpl.
  assert (kz ≤ m) as Hle by (apply Hmax; eauto).
  assert (kz = m) as ->.
  { apply elem_of_cons in Hrow as [[= ->] | Hrest]; [done |].
    apply StronglySorted_inv in Hsorted as [_ Hall].
    rewrite Forall_forall in Hall. specialize (Hall _ Hrest).
    unfold key_gt in Hall. simpl in Hall. lia. }
  pose proof (Hsafe s m ltac:(eauto)) as Hrange.
  rewrite (to_double_exact m) by lia.
  apply to_double_exact. lia.
Qed.

Lemma next_id_nonneg (s : string) (t : Table) : nonneg_ids t → 0 ≤ next_id s t.
Proof.
  intros Hnn. unfold next_id.
  destruct (scan_matching s (compare_with GE 0) t) as [_ Hin].
  destruct (scan false (matching s (compare_with GE 0) t)) as [| [k r] rows]; [done |].
  destruct (Hin k r) as [Hk _].
  destruct Hk as (Hk & Hs & _); [left |].
  destruct k as [ks kz]. simpl.
  assert (0 ≤ kz) by (apply (Hnn ks kz); eauto).
  apply to_double_nonneg.
  pose proof (to_double_nonneg kz). lia.
Qed.

Lemma partition_cases (s : string) (t : Table) :
  nonneg_ids t → empty_partition s t ∨ ∃ m, highest s t m.
Proof.
  intros Hnn.
  destruct (scan_matching s (compare_with GE 0) t) as [Hsorted Hin].
  destruct (scan false (matching s (compare_with GE 0) t)) as [| [k r] rows].
  - left. intros z. destruct (t !! (s, z)) as [row |] eqn:Hz; [| done].
    exfalso. apply (not_elem_of_nil (s, z, row)). apply (Hin (s, z) row).
    split_and!; [done | done |].
    simpl. apply Z.leb_le. apply (Hnn s z). eauto.
  - right. destruct (Hin k r) as [Hk _].
    destruct Hk as (Hk & Hs & _); [left |].
    destruct k as [ks kz]. simpl in Hs. subst ks.
    exists kz. split; [eauto |].
    intros z [row Hz].
    assert ((s, z, row) ∈ (s, kz, r) :: rows) as Hrow.
    { apply Hin. split_and!; [done | done |].
      simpl. apply Z.leb_le. apply (Hnn s z). eauto. }
    apply elem_of_cons in Hrow as [[= ->] | Hrest]; [done |].
    apply StronglySorted_inv in Hsorted as [_ Hall].
    rewrite Forall_forall in Hall. specialize (Hall _ Hrest).
    unfold key_gt in Hall. simpl in Hall. lia.
Qed.

(** ** Posting news *)

Lemma putItem_news (hd s tx : string) (z : Z) (d : Database) :
  putItem
    (PutItemInput.mk NEWS_TABLE
       [("Heading", AV_S (JString hd));
        ("PostID", AV_N (JString (decimal z)));
        ("Service", AV_S (JString s));
        ("Text", AV_S (JString tx))]) d
  = inr (mkDatabase (<[(s, z) := news_row hd tx]> (news d)) (scores d)).
Proof.
  unfold putItem. cbn [find_table PutItemInput.TableName PutItemInput.Item].
  change (String.eqb NEWS_TABLE NEWS_TABLE) with true. cbv iota.
  cbn [check_item check_attr]. rewrite parse_decimal_decimal.
  reflexivity.
Qed.

Lemma handleNewsPost_valid (req : Request) (w : World) (hd s tx : string) :
  field req "heading" = JString hd → field req "service" = JString s →
  field req "text" = JString tx →
  hd ≠ EmptyString → s ≠ EmptyString → tx ≠ EmptyString →
  reaches_store 2 w →
  ∃ c1 c2,
    API_News.handleNewsPost req w
    = res_json (JsonMsg "News Posted")
        (set_db
           (mkDatabase
              (<[(s, next_id s (news (db w))) := news_row hd tx]> (news (db w)))
              (scores (db w)))
           (issued c2 (issued c1 w))).
Proof.
  intros Hhd Hs Htx Hhd' Hs' Htx' Hnet.
  unfold API_News.handleNewsPost.
  rewrite !truthy_js_and, Hhd, Hs, Htx. unfold body_value.
  rewrite !truthy_JString by done. cbn [truthy andb].
  destruct (getPostID_reaches s
    (λ postNumber,
       dynamodb_putItem
         (PutItemInput.mk NEWS_TABLE
            [("Heading", AV_S (JString hd)); ("PostID", AV_N (JString postNumber));
             ("Service", AV_S (JString s)); ("Text", AV_S (JString tx))])
         (λ reply,
            match reply with
            | Failed err => λ w, res_json (JsonMsgErr err) (console_log err w)
            | Succeeded _ => res_json (JsonMsg "News Posted")
            end)) w) as [c1 Hc1].
  { apply (reaches_store_le 1 2); [lia | done]. }
  exists c1. eexists. rewrite Hc1.
  unfold dynamodb_putItem.
  rewrite dynamodb_call_reaches; [| done | by apply reaches_store_issued].
  rewrite issued_db, putItem_news. reflexivity.
Qed.

(** ** Requests that fail the test on the body *)

Lemma falsy_refusal (r : Route) (req : Request) (w : World) (f : string) :
  f ∈ required r → truthy (field req f) = false →
  dispatch r req w = res_json (JsonMsg (refusal r)) w.
Proof.
  intros Hf Hfalsy.
  destruct r; cbn [required] in Hf; cbn [dispatch refusal];
    repeat (apply elem_of_cons in Hf as [-> | Hf]); try by apply elem_of_nil in Hf.
  all: unfold API_News.handleNewsPost, API_News.handleDeleteRequest,
         API_Score.handleScorePost, API_Score.handleDeleteRequest.
  all: rewrite !truthy_js_and, Hfalsy.
  all: by rewrite ?andb_false_r.
Qed.

(** ** Deleting *)

Lemma deleteItem_news (s p : string) (z : Z) (d : Database) :
  parse_decimal p = Some z →
  deleteItem
    (DeleteItemInput.mk NEWS_TABLE
       [("Service", AV_S (JString s)); ("PostID", AV_N (JString p))] []) d
  = inr (mkDatabase (delete (s, z) (news d)) (scores d)).
Proof.
  intros Hp. unfold deleteItem.
  cbn [find_table DeleteItemInput.TableName DeleteItemInput.Key DeleteItemInput.Expected].
  change (String.eqb NEWS_TABLE NEWS_TABLE) with true. cbv iota.
  cbn [check_item check_attr]. rewrite Hp.
  reflexivity.
Qed.

Lemma handleDeleteRequest_news (req : Request) (w : World) (s p : string) (z : Z) :
  field req "service" = JString s → field req "postID" = JString p →
  s ≠ EmptyString → parse_decimal p = Some z →
  reaches_store 1 w →
  ∃ c,
    API_News.handleDeleteRequest req w
    = res_json (JsonMsg "item deleted successful")
        (set_db (mkDatabase (delete (s, z) (news (db w))) (scores (db w)))
           (issued c w)).
Proof.
  intros Hs Hp Hs' Hz Hnet. eexists.
  unfold API_News.handleDeleteRequest.
  rewrite truthy_js_and, Hs, Hp.
  rewrite !truthy_JString; [| by intros -> | done].
  cbn [andb]. unfold dynamodb_deleteItem.
  rewrite dynamodb_call_reaches by done.
  by rewrite (deleteItem_news s p z).
Qed.

(** ** What a descending query shows *)

Lemma shows_rendered (sch : KeySchema) (attrs : list string) (h : string) (t : Table)
    (kv : (string * Z) * Item) :
  hashKey sch ≠ rangeKey sch → hashKey sch ∈ attrs → rangeKey sch ∈ attrs →
  t !! kv.1 = Some kv.2 → kv.1.1 = h → compare_with GE 0 kv.1.2 = true →
  shows sch attrs h t (project attrs (render sch kv.1 kv.2)) kv.1.2.
Proof.
  intros Hne Hh Hr Hkv <- Hge. destruct kv as [[s z] row]. simpl in *.
  split_and!.
  - rewrite lookup_project by done. apply (lookup_render_hash sch (s, z)).
  - rewrite lookup_project by done. by apply (lookup_render_range sch (s, z)).
  - by apply Z.leb_le.
  - exists row. split; [done |]. intros a Ha H1 H2.
    rewrite lookup_project by done. by apply lookup_render_other.
Qed.

Lemma answer_items (sch : KeySchema) (attrs : list string) (lim : option nat)
    (h : string) (t : Table) :
  hashKey sch ≠ rangeKey sch → hashKey sch ∈ attrs → rangeKey sch ∈ attrs →
  ∃ keys : list Z,
    Forall2 (shows sch attrs h t) (Items (answer sch attrs lim h t)) keys ∧
    descending keys ∧
    (length keys ≤ capacity lim)%nat ∧
    (∀ z, is_Some (t !! (h, z)) → 0 ≤ z →
       z ∈ keys ∨ length keys = capacity lim ∧ Forall (λ k, z < k) keys).
Proof.
  intros Hne Hh Hr.
  destruct (scan_matching h (compare_with GE 0) t) as [Hsorted Hin].
  unfold answer. rewrite limit_to_first_rows.
  set (full := scan false (matching h (compare_with GE 0) t)) in *.
  set (n := capacity lim). clearbody n.
  exists ((λ kv, kv.1.2) <$> take n full).
  assert (∀ x, x ∈ take n full → x ∈ full) as Hsub.
  { intros x (i & Hi & _)%elem_of_take. by eapply list_elem_of_lookup_2. }
  assert (StronglySorted key_gt (take n full)) as Hsorted'.
  { rewrite <- (take_drop n full) in Hsorted.
    by apply StronglySorted_app_1_l in Hsorted. }
  split_and!.
  - cbn [Items]. apply Forall2_fmap, Forall_Forall2_diag, Forall_forall.
    intros [k row] Hx. apply Hsub, Hin in Hx as (? & ? & ?).
    by apply shows_rendered.
  - unfold descending.
    by apply (StronglySorted_fmap _ key_gt (λ a b, b < a)).
  - rewrite length_fmap, length_take. lia.
  - intros z [row Hz] Hge.
    assert ((h, z, row) ∈ full) as Hfull.
    { apply Hin. split_and!; [done | done |]. by apply Z.leb_le. }
    rewrite <- (take_drop n full) in Hfull, Hsorted.
    apply elem_of_app in Hfull as [Htake | Hdrop].
    + left. apply list_elem_of_fmap. by exists (h, z, row).
    + right. split.
      * rewrite length_fmap, length_take.
        apply list_elem_of_lookup in Hdrop as [i Hi].
        apply lookup_lt_Some in Hi. rewrite length_drop in Hi. lia.
      * apply Forall_fmap, Forall_forall. intros x Hx.
        apply (StronglySorted_app_1_elem_of _ _ _ x (h, z, row)) in Hsorted;
          done.
Qed.

(** ** Listing *)

Lemma handleListNews_reaches (req : Request) (w : World) :
  reaches_store 1 w →
  ∃ c,
    API_News.handleListNews req w
    = res_json
        (JsonItems
           (Items (answer (mkSchema "Service" "PostID")
                     ["Heading"; "PostID"; "Text"; "Service"] None "VERSION1"
                     (news (db w)))))
        (issued c w).
Proof.
  intros Hnet. eexists. unfold API_News.handleListNews, dynamodb_query.
  rewrite dynamodb_call_reaches by done.
  rewrite query_news. cbn [with_data]. by rewrite set_db_issued.
Qed.

Lemma handleGetScores_reaches (req : Request) (w : World) :
  reaches_store 1 w →
  ∃ c,
    API_Score.handleGetScores req w
    = res_json
        (JsonItems
           (Items (answer (mkSchema "Service" "Highscore")
                     ["Service"; "Highscore"; "Name"] (Some 5%nat) "VERSION1"
                     (scores (db w)))))
        (issued c w).
Proof.
  intros Hnet. eexists. unfold API_Score.handleGetScores, dynamodb_query.
  rewrite dynamodb_call_reaches by done.
  rewrite query_scores. cbn [with_data]. by rewrite set_db_issued.
Qed.

(** ** Scores *)

Lemma putItem_scores (s h n : string) (z : Z) (d : Database) :
  parse_decimal h = Some z →
  putItem
    (PutItemInput.mk SCORES_TABLE
       [("Service", AV_S (JString s));
        ("Highscore", AV_N (JString h));
        ("Name", AV_S (JString n))]) d
  = inr (mkDatabase (news d) (<[(s, z) := score_row n]> (scores d))).
Proof.
  intros Hh. unfold putItem.
  cbn [PutItemInput.TableName PutItemInput.Item check_item check_attr].
  rewrite Hh. reflexivity.
Qed.

Lemma handleScorePost_valid (req : Request) (w : World) (s h n : string) (z : Z) :
  field req "service" = JString s → field req "highscore" = JString h →
  field req "name" = JString n →
  s ≠ EmptyString → n ≠ EmptyString → parse_decimal h = Some z →
  reaches_store 1 w →
  ∃ c,
    API_Score.handleScorePost req w
    = res_json (JsonMsg "Score Posted")
        (set_db (mkDatabase (news (db w)) (<[(s, z) := score_row n]> (scores (db w))))
           (issued c (count_post w))).
Proof.
  intros Hs Hh Hn Hs' Hn' Hz Hnet. eexists.
  unfold API_Score.handleScorePost.
  rewrite !truthy_js_and, Hs, Hh, Hn. unfold body_value.
  rewrite !truthy_JString; [| done | by intros -> | done].
  cbn [truthy andb]. unfold dynamodb_putItem.
  rewrite dynamodb_call_reaches by (by destruct w).
  replace (db (count_post w)) with (db w) by by destruct w.
  by rewrite (putItem_scores s h n z).
Qed.

Lemma deleteItem_scores (s h n : string) (z : Z) (d : Database) :
  parse_decimal h = Some z →
  deleteItem
    (DeleteItemInput.mk SCORES_TABLE
       [("Service", AV_S (JString s)); ("Highscore", AV_N (JString h))]
       [("Name", mkExpected true (Some (AV_S (JString n))))]) d
  = if bool_decide (name_at (scores d) (s, z) = Some (StrV n))
    then inr (mkDatabase (news d) (delete (s, z) (scores d)))
    else inl ConditionalCheckFailedException.
Proof.
  intros Hh. unfold deleteItem.
  cbn [DeleteItemInput.TableName DeleteItemInput.Key DeleteItemInput.Expected
       check_item check_attr].
  rewrite Hh.
  change (find_table SCORES_TABLE d)
    with (Some (mkSchema "Service" "Highscore", scores d)).
  cbv iota beta.
  change (key_of _ _) with (Some (s, z)). cbv iota beta.
  cbn [expectations expectation Exists Value snd fst check_attr].
  assert ((render (mkSchema "Service" "Highscore") (s, z) <$> scores d !! (s, z))
            ≫= lookup "Name" = name_at (scores d) (s, z)) as ->.
  { unfold name_at. destruct (scores d !! (s, z)) as [row |]; [| done].
    simpl. by rewrite lookup_render_other. }
  rewrite andb_true_r.
  by destruct (bool_decide (name_at (scores d) (s, z) = Some (StrV n))).
Qed.

(** ** The identifiers the program writes are never negative *)

Lemma dynamodb_call_cases {A : Type} (c : StoreCall)
    (op : Database → StoreError + (A * Database))
    (callback : Reply A → World → World) (w : World) :
  (∃ err, param_check c = Some err
     ∧ dynamodb_call c op callback w = callback (Failed err) (record_call c w))
  ∨ (∃ err, param_check c = None
       ∧ dynamodb_call c op callback w = callback (Failed err) (issued c w))
  ∨ (∃ data d, param_check c = None ∧ op (db w) = inr (data, d)
       ∧ dynamodb_call c op callback w
         = callback (Succeeded data) (set_db d (issued c w))).
Proof.
  unfold dynamodb_call, issued.
  destruct (param_check c) as [err |]; [left; by eexists |].
  right.
  destruct w as [d [| [e |] rest] cs rs con unc sp];
    cbn [db network record_call set_network head tail];
    try (left; by eexists).
  all: destruct (op d) as [err | [data d']] eqn:Hop;
    [left; by eexists | right; by eexists _, _].
Qed.

Lemma dynamodb_call_outcome {A : Type} (c : StoreCall)
    (op : Database → StoreError + (A * Database))
    (callback : Reply A → World → World) (w : World) :
  (∃ err, dynamodb_call c op callback w = callback (Failed err) (failed_call c w))
  ∨ (∃ data d, param_check c = None ∧ op (db w) = inr (data, d)
       ∧ dynamodb_call c op callback w
         = callback (Succeeded data) (set_db d (issued c w))).
Proof.
  destruct (dynamodb_call_cases c op callback w)
    as [(err & Hc & ->) | [(err & Hc & ->) | (data & d & Hc & Hop & ->)]].
  - left. exists err. unfold failed_call. rewrite Hc. by destruct w.
  - left. exists err. unfold failed_call. rewrite Hc. by destruct w.
  - right. by exists data, d.
Qed.

Lemma getPostID_cases (version : JSValue) (callback : string → World → World)
    (w : World) :
  (∃ c err, API_News.getPostID version callback w
            = console_log err (failed_call c w))
  ∨ (∃ c s, version = JString s
       ∧ API_News.getPostID version callback w
         = callback (decimal (next_id s (news (db w)))) (issued c w)).
Proof.
  unfold API_News.getPostID, dynamodb_query.
  match goal with
  | |- context [dynamodb_call ?c ?op ?cb w] =>
      destruct (dynamodb_call_outcome c op cb w)
        as [[err ->] | (out & d & Hc & Hop & ->)]
  end.
  { left. by eexists _, _. }
  destruct version as [| | b | n | s |]; try discriminate Hc.
  right. eexists _, s. split; [done |].
  rewrite query_news in Hop. cbn [with_data] in Hop.
  injection Hop as <- <-.
  unfold answer, next_id.
  rewrite limit_to_first_rows. destruct capacity_page as [n ->].
  cbv beta iota. rewrite set_db_issued.
  destruct (scan false (matching s (compare_with GE 0) (news (db w))))
    as [| [k row] rows]; [done |].
  cbn [take].
  cbn [fmap list_fmap length Count Items Nat.eqb head mbind option_bind].
  unfold get_N.
  rewrite lookup_project by set_solver.
  rewrite (lookup_render_range (mkSchema "Service" "PostID")) by done.
  cbn [mbind option_bind attr_N fst snd].
  by rewrite Number_decimal.
Qed.

Lemma putItem_news_key (v1 v2 v3 : JSValue) (z : Z) (d d' : Database) :
  putItem
    (PutItemInput.mk NEWS_TABLE
       [("Heading", AV_S v1); ("PostID", AV_N (JString (decimal z)));
        ("Service", AV_S v2); ("Text", AV_S v3)]) d = inr d' →
  ∃ s row, news d' = <[(s, z) := row]> (news d).
Proof.
  unfold putItem.
  cbn [PutItemInput.TableName PutItemInput.Item check_item check_attr].
  rewrite parse_decimal_decimal.
  change (find_table NEWS_TABLE d) with (Some (mkSchema "Service" "PostID", news d)).
  cbv beta iota.
  destruct v1; try discriminate.
  destruct v2; try discriminate.
  destruct v3; try discriminate.
  intros [= <-]. by eexists _, _.
Qed.

Lemma putItem_scores_news (item : list (string * AttributeValue)) (d d' : Database) :
  putItem (PutItemInput.mk SCORES_TABLE item) d = inr d' → news d' = news d.
Proof.
  unfold putItem. cbn [PutItemInput.TableName PutItemInput.Item].
  change (find_table SCORES_TABLE d)
    with (Some (mkSchema "Service" "Highscore", scores d)).
  cbv beta iota.
  destruct (check_item item) as [e | it]; [done |].
  destruct (key_of _ it); [| done].
  by intros [= <-].
Qed.

Lemma deleteItem_news_subset (p : DeleteItemInput.t) (d d' : Database) :
  deleteItem p d = inr d' →
  ∀ k, is_Some (news d' !! k) → is_Some (news d !! k).
Proof.
  unfold deleteItem, find_table, store_table.
  destruct (String.eqb (DeleteItemInput.TableName p) NEWS_TABLE);
    [| destruct (String.eqb (DeleteItemInput.TableName p) SCORES_TABLE); [| done]].
  all: destruct (check_item (DeleteItemInput.Key p)) as [e | key]; [done |].
  all: destruct (key_of _ key) as [k' |]; [| done].
  all: destruct (expectations _ _) as [e | []]; try done.
  all: intros [= <-] k; cbn [news]; try done.
  intros [row [_ Hk]%lookup_delete_Some]. eauto.
Qed.

Lemma nonneg_ids_insert (t : Table) (s : string) (z : Z) (row : Item) :
  0 ≤ z → nonneg_ids t → nonneg_ids (<[(s, z) := row]> t).
Proof.
  intros Hz Hnn s' z' [row' H].
  apply lookup_insert_Some in H as [[[= <- <-] _] | [_ H]]; [done |].
  apply (Hnn s' z'). eauto.
Qed.

Lemma dispatch_keeps_ids_nonneg (r : Route) (req : Request) (w : World) :
  nonneg_ids (news (db w)) → nonneg_ids (news (db (dispatch r req w))).
Proof.
  intros Hnn. destruct r; cbn [dispatch].
  - (* PostNews *)
    unfold API_News.handleNewsPost. case_match; [| done].
    match goal with
    | |- context [API_News.getPostID ?v ?cb w] =>
        destruct (getPostID_cases v cb w) as [(c & err & ->) | (c & s & Hs & ->)]
    end; [done |].
    unfold dynamodb_putItem.
    match goal with
    | |- context [dynamodb_call ?c' ?op ?cb (issued c w)] =>
        destruct (dynamodb_call_cases c' op cb (issued c w))
          as [(err & _ & ->) | [(err & _ & ->) | ([] & d & _ & Hop & ->)]]
    end; [done | done |].
    cbn [res_json set_db db]. rewrite issued_db in Hop.
    destruct (putItem _ (db w)) as [e | d'] eqn:Hput; [done |].
    cbn [with_data] in Hop. injection Hop as <-.
    apply putItem_news_key in Hput as (s' & row & ->).
    apply nonneg_ids_insert; [| done]. by apply next_id_nonneg.
  - (* GetNews *)
    unfold API_News.handleListNews, dynamodb_query.
    match goal with
    | |- context [dynamodb_call ?c' ?op ?cb w] =>
        destruct (dynamodb_call_cases c' op cb w)
          as [(err & _ & ->) | [(err & _ & ->) | (out & d & _ & Hop & ->)]]
    end; [done | done |].
    destruct (query _ (db w)); [done |].
    cbn [with_data] in Hop. by injection Hop as <- <-.
  - (* DeleteNews *)
    unfold API_News.handleDeleteRequest. case_match; [| done].
    unfold dynamodb_deleteItem.
    match goal with
    | |- context [dynamodb_call ?c' ?op ?cb w] =>
        destruct (dynamodb_call_cases c' op cb w)
          as [(err & _ & ->) | [(err & _ & ->) | ([] & d & _ & Hop & ->)]]
    end; [done | done |].
    destruct (deleteItem _ (db w)) as [e | d'] eqn:Hdel; [done |].
    cbn [with_data] in Hop. injection Hop as <-.
    intros s z Hk. apply (Hnn s z).
    by apply (deleteItem_news_subset _ _ _ Hdel).
  - (* PostScore *)
    unfold API_Score.handleScorePost. case_match; [| done].
    unfold dynamodb_putItem.
    match goal with
    | |- context [dynamodb_call ?c' ?op ?cb (count_post w)] =>
        destruct (dynamodb_call_cases c' op cb (count_post w))
          as [(err & _ & ->) | [(err & _ & ->) | ([] & d & _ & Hop & ->)]]
    end; [by destruct w | by destruct w |].
    replace (db (count_post w)) with (db w) in Hop by by destruct w.
    destruct (putItem _ (db w)) as [e | d'] eqn:Hput; [done |].
    cbn [with_data] in Hop. injection Hop as <-.
    cbn [res_json set_db db]. by rewrite (putItem_scores_news _ _ _ Hput).
  - (* GetScores *)
    unfold API_Score.handleGetScores, dynamodb_query.
    match goal with
    | |- context [dynamodb_call ?c' ?op ?cb w] =>
        destruct (dynamodb_call_cases c' op cb w)
          as [(err & _ & ->) | [(err & _ & ->) | (out & d & _ & Hop & ->)]]
    end; [done | done |].
    destruct (query _ (db w)); [done |].
    cbn [with_data] in Hop. by injection Hop as <- <-.
  - (* DeleteScore *)
    unfold API_Score.handleDeleteRequest. case_match; [| done].
    unfold dynamodb_deleteItem.
    match goal with
    | |- context [dynamodb_call ?c' ?op ?cb w] =>
        destruct (dynamodb_call_cases c' op cb w)
          as [(err & _ & ->) | [(err & _ & ->) | ([] & d & _ & Hop & ->)]]
    end; [done | done |].
    destruct (deleteItem _ (db w)) as [e | d'] eqn:Hdel; [done |].
    cbn [with_data] in Hop. injection Hop as <-.
    intros s z Hk. apply (Hnn s z).
    by apply (deleteItem_news_subset _ _ _ Hdel).
Qed.

Lemma serve_keeps_ids_nonneg (l : list (Route * Request)) (w : World) :
  nonneg_ids (news (db w)) → nonneg_ids (news (db (serve l w))).
Proof.
  revert w. induction l as [| [r req] l IH]; intros w Hnn; [done |].
  apply IH. by apply dispatch_keeps_ids_nonneg.
Qed.

Lemma served_from_empty_ids_nonneg (l : list (Route * Request)) :
  nonneg_ids (news (db (serve l empty_world))).
Proof.
  apply serve_keeps_ids_nonneg. intros s z [row H].
  cbn [empty_world db news] in H. by apply lookup_empty_Some in H.
Qed.

(** ** Requests that pass the test on the body *)

Lemma truthy_all (vs : list JSValue) :
  Forall (λ v, truthy v = true) vs →
  truthy (foldl js_and JObject vs) = true.
Proof.
  assert (∀ a, truthy a = true → Forall (λ v, truthy v = true) vs →
               truthy (foldl js_and a vs) = true) as Hgen.
  { induction vs as [| v vs IH]; intros a Ha Hvs; [done |].
    apply Forall_cons in Hvs as [Hv Hvs]. cbn [foldl].
    apply IH; [| done]. by rewrite truthy_js_and, Ha, Hv. }
  by apply Hgen.
Qed.

(** When every field a route tests is truthy, the route goes on to call the
    SDK: the lists in [required] leave out no field that would stop it. *)
Lemma truthy_fields_contact_store (r : Route) (req : Request) (w : World) :
  (∀ f, f ∈ required r → truthy (field req f) = true) →
  (length (calls w) < length (calls (dispatch r req w)))%nat.
Proof.
  intros Hall.
  assert (∀ fs, (∀ f, f ∈ fs → f ∈ required r) →
            truthy (foldl js_and JObject (field req <$> fs)) = true) as Hchain.
  { intros fs Hfs. apply truthy_all, Forall_fmap, Forall_forall.
    intros f Hf. by apply Hall, Hfs. }
  destruct r; cbn [dispatch required] in *.
  - unfold API_News.handleNewsPost, body_value.
    change (truthy _) with
      (truthy (foldl js_and JObject (field req <$> ["heading"; "service"; "text"]))).
    rewrite Hchain by done.
    match goal with
    | |- context [API_News.getPostID ?v ?cb w] =>
        destruct (getPostID_cases v cb w) as [(c & err & ->) | (c & s & Hs & ->)]
    end; [cbn; lia |].
    unfold dynamodb_putItem.
    match goal with
    | |- context [dynamodb_call ?c' ?op ?cb (issued c w)] =>
        destruct (dynamodb_call_cases c' op cb (issued c w))
          as [(err & _ & ->) | [(err & _ & ->) | ([] & d & _ & Hop & ->)]]
    end; cbn; lia.
  - unfold API_News.handleListNews, dynamodb_query.
    match goal with
    | |- context [dynamodb_call ?c' ?op ?cb w] =>
        destruct (dynamodb_call_cases c' op cb w)
          as [(err & _ & ->) | [(err & _ & ->) | (out & d & _ & Hop & ->)]]
    end; cbn; lia.
  - unfold API_News.handleDeleteRequest.
    assert (truthy (field req "service" &&& field req "postID") = true) as ->.
    { rewrite truthy_js_and, !Hall by set_solver. done. }
    unfold dynamodb_deleteItem.
    match goal with
    | |- context [dynamodb_call ?c' ?op ?cb w] =>
        destruct (dynamodb_call_cases c' op cb w)
          as [(err & _ & ->) | [(err & _ & ->) | ([] & d & _ & Hop & ->)]]
    end; cbn; lia.
  - unfold API_Score.handleScorePost, body_value.
    change (truthy _) with
      (truthy (foldl js_and JObject (field req <$> ["service"; "highscore"; "name"]))).
    rewrite Hchain by done.
    unfold dynamodb_putItem.
    match goal with
    | |- context [dynamodb_call ?c' ?op ?cb (count_post w)] =>
        destruct (dynamodb_call_cases c' op cb (count_post w))
          as [(err & _ & ->) | [(err & _ & ->) | ([] & d & _ & Hop & ->)]]
    end; destruct w; cbn; lia.
  - unfold API_Score.handleGetScores, dynamodb_query.
    match goal with
    | |- context [dynamodb_call ?c' ?op ?cb w] =>
        destruct (dynamodb_call_cases c' op cb w)
          as [(err & _ & ->) | [(err & _ & ->) | (out & d & _ & Hop & ->)]]
    end; cbn; lia.
  - unfold API_Score.handleDeleteRequest, body_value.
    change (truthy _) with
      (truthy (foldl js_and JObject (field req <$> ["service"; "name"; "highscore"]))).
    rewrite Hchain by done.
    unfold dynamodb_deleteItem.
    match goal with
    | |- context [dynamodb_call ?c' ?op ?cb w] =>
        destruct (dynamodb_call_cases c' op cb w)
          as [(err & _ & ->) | [(err & _ & ->) | ([] & d & _ & Hop & ->)]]
    end; cbn; lia.
Qed.

(** ** The example worlds *)

Lemma two_posts_safe : safe_ids (news (db two_posts)).
Proof.
  intros s z [row H]. cbn [two_posts db news] in H. unfold MAX_SAFE_INTEGER.
  apply lookup_insert_Some in H as [[[= <- <-] _] | [_ H]]; [lia |].
  apply lookup_insert_Some in H as [[[= <- <-] _] | [_ H]]; [lia |].
  by apply lookup_empty_Some in H.
Defined.

Lemma two_posts_highest : highest "VERSION1" (news (db two_posts)) 1.
Proof.
  split; [by eexists |].
  intros z [row H]. cbn [two_posts db news] in H.
  apply lookup_insert_Some in H as [[[= <-] _] | [_ H]]; [lia |].
  apply lookup_insert_Some in H as [[[= <-] _] | [_ H]]; [lia |].
  by apply lookup_empty_Some in H.
Defined.

Lemma empty_network_reaches (n : nat) (w : World) :
  network w = [] → reaches_store n w.
Proof. unfold reaches_store. intros ->. rewrite take_nil. constructor. Defined.

Lemma guard_validated3 (req : Request) (f1 f2 f3 : string) :
  truthy (JObject &&& field req f1 &&& field req f2 &&& field req f3)
  = forallb (λ f, truthy (field req f)) [f1; f2; f3].
Proof.
  rewrite !truthy_js_and. cbn [truthy forallb].
  by destruct (truthy (field req f1)), (truthy (field req f2)),
       (truthy (field req f3)).
Qed.

Lemma guard_validated2 (req : Request) (f1 f2 : string) :
  truthy (field req f1 &&& field req f2)
  = forallb (λ f, truthy (field req f)) [f1; f2].
Proof.
  rewrite !truthy_js_and. cbn [forallb].
  by destruct (truthy (field req f1)), (truthy (field req f2)).
Qed.

(** ** Calls the SDK lets through *)

Lemma score_delete_well_typed (req : Request) :
  param_check (CallDeleteItem (score_delete_params req)) = None →
  ∃ s h n, field req "service" = JString s ∧ field req "highscore" = JString h
           ∧ field req "name" = JString n.
Proof.
  unfold param_check, score_delete_params.
  cbn [attributes_of DeleteItemInput.Key DeleteItemInput.Expected fmap list_fmap
       omap list_omap snd Value app].
  destruct (field req "service") as [| | b1 | z1 | s |],
           (field req "highscore") as [| | b2 | z2 | h |],
           (field req "name") as [| | b3 | z3 | n |];
    cbn [List.filter well_typed negb]; try discriminate.
  intros _. by exists s, h, n.
Qed.

(** ** More posts than a page holds *)


(** * Properties of the specification *)

(** C1.  For every partition key [s]: when the stored post identifiers are
    non-negative integers a JavaScript number holds exactly and the store is
    reached, [getPostID] hands its callback the decimal numeral of the
    successor of the highest PostID stored for [s], and ["0"] when the
    partition holds no row; a valid news post for [s] then stores its row
    under exactly that identifier and answers "News Posted". *)
Theorem getPostID_allocates_successor (w : World) (s : string) :
  safe_ids (news (db w)) →
  reaches_store 2 w →
  ∃ id : string,
    (∀ callback, ∃ c,
       API_News.getPostID (JString s) callback w = callback id (issued c w))
    ∧ (empty_partition s (news (db w)) → id = "0")
    ∧ (∀ m, highest s (news (db w)) m → id = decimal (m + 1))
    ∧ (∀ req hd tx,
         field req "heading" = JString hd → field req "service" = JString s →
         field req "text" = JString tx → hd ≠ EmptyString → s ≠ EmptyString → tx ≠ EmptyString →
         ∃ z, parse_decimal id = Some z
           ∧ news (db (API_News.handleNewsPost req w))
             = <[(s, z) := news_row hd tx]> (news (db w))
           ∧ responses (API_News.handleNewsPost req w)
             = JsonMsg "News Posted" :: responses w).
Proof.
  intros Hsafe Hnet.
  exists (decimal (next_id s (news (db w)))). split_and!.
  - intros callback. apply getPostID_reaches.
    apply (reaches_store_le 1 2); [lia | done].
  - intros Hempty. by rewrite next_id_empty.
  - intros m Hm. by rewrite (next_id_highest s _ m).
  - intros req hd tx Hhd Hs Htx Hhd' Hs' Htx'.
    exists (next_id s (news (db w))). split; [apply parse_decimal_decimal |].
    destruct (handleNewsPost_valid req w hd s tx) as (c1 & c2 & ->); done.
Qed.

(** C2.  The specification wants every failure of a store call turned into a
    JSON message response.  The program does not do so for its three
    queries: when the store call of [handleListNews], of [handleGetScores] or
    of [getPostID] fails, the error branch only logs the error; no response
    is sent and the callback of [getPostID] is never run. *)
Theorem query_failure_leaves_request_unanswered (req : Request) (d : Database)
    (err : StoreError) (rest : list (option StoreError)) (cs : list StoreCall)
    (rs : list Json) (con : list StoreError) (unc : list string) (sp : nat) :
  let w := mkWorld d (Some err :: rest) cs rs con unc sp in
  responses (API_News.handleListNews req w) = rs
  ∧ responses (API_Score.handleGetScores req w) = rs
  ∧ (∀ version callback, responses (API_News.getPostID version callback w) = rs)
  ∧ console (API_News.handleListNews req w) = err :: con.
Proof.
  intros w. split_and!.
  - unfold API_News.handleListNews, dynamodb_query.
    by erewrite dynamodb_call_fails.
  - unfold API_Score.handleGetScores, dynamodb_query.
    by erewrite dynamodb_call_fails.
  - intros version callback.
    destruct (getPostID_cases version callback w)
      as [(c & e & ->) | (c & s & -> & _)]; [done |].
    destruct (getPostID_fails s callback w err rest) as [c' ->]; done.
  - unfold API_News.handleListNews, dynamodb_query.
    by erewrite dynamodb_call_fails.
Qed.

(** C3.  On each of the four post and delete routes, a request whose body
    lacks one of the required fields is answered with the route's
    validation-failure message; no call to the store is issued and the store
    is unchanged. *)
Theorem missing_field_refused (r : Route) (req : Request) (w : World) (f : string) :
  f ∈ required r →
  body req !! f = None →
  responses (dispatch r req w) = JsonMsg (refusal r) :: responses w
  ∧ calls (dispatch r req w) = calls w
  ∧ db (dispatch r req w) = db w.
Proof.
  intros Hf Hmissing.
  rewrite (falsy_refusal r req w f); [done | done |].
  by rewrite field_missing.
Qed.

(** C4, as amended.  For every state of the scores table and every delete
    request that passes the test on the body with a highscore that is an
    integer numeral or no string at all, when the network lets the call
    through: the success message is sent exactly when the three fields are
    strings and a row is stored under (service, highscore) whose Name is the
    given name, and then that row is removed; otherwise the database is
    unchanged and the error of the failed call is sent as the message, the
    one of the SDK when a field is not a string, and else the one the store
    reports for the condition that does not hold. *)
Theorem deleteScore_conditional (req : Request) (w : World) :
  validated DeleteScore req = true →
  (∀ h, field req "highscore" = JString h → is_Some (parse_decimal h)) →
  reaches_store 1 w →
  let w' := API_Score.handleDeleteRequest req w in
  let held := ∃ s h n z,
                field req "service" = JString s
                ∧ field req "highscore" = JString h
                ∧ field req "name" = JString n
                ∧ parse_decimal h = Some z
                ∧ name_at (scores (db w)) (s, z) = Some (StrV n) in
  (responses w' = JsonMsg "item deleted successful" :: responses w ↔ held)
  ∧ (∀ s h n z,
       field req "service" = JString s → field req "highscore" = JString h →
       field req "name" = JString n → parse_decimal h = Some z →
       name_at (scores (db w)) (s, z) = Some (StrV n) →
       scores (db w') = delete (s, z) (scores (db w))
       ∧ news (db w') = news (db w))
  ∧ (¬ held →
       responses w'
       = JsonMsgErr
           (default ConditionalCheckFailedException
              (param_check (CallDeleteItem (score_delete_params req))))
         :: responses w
       ∧ db w' = db w).
Proof.
  intros Hv Hnum Hnet w' held. subst w'.
  unfold validated in Hv. cbn [required] in Hv.
  unfold API_Score.handleDeleteRequest, body_value. rewrite guard_validated3, Hv.
  unfold dynamodb_deleteItem.
  destruct (param_check (CallDeleteItem (score_delete_params req)))
    as [err |] eqn:Hc.
  - unfold score_delete_params in Hc.
    rewrite (dynamodb_call_refused _ _ _ _ err Hc).
    assert (¬ held) as Hnot.
    { intros (s & h & n & z & Hs & Hh & Hn & _).
      rewrite Hs, Hh, Hn in Hc. discriminate Hc. }
    split_and!.
    + split; [intros [=] | done].
    + intros s h n z Hs Hh Hn Hz Hname. destruct Hnot. by exists s, h, n, z.
    + done.
  - destruct (score_delete_well_typed req Hc) as (s & h & n & Hs & Hh & Hn).
    destruct (Hnum h Hh) as [z Hz].
    rewrite Hs, Hh, Hn.
    rewrite dynamodb_call_reaches by done.
    rewrite (deleteItem_scores s h n z) by done.
    case_bool_decide as Hname; cbn [with_data default].
    + assert held as Hheld by (by exists s, h, n, z).
      split_and!; [done | | done].
      intros s' h' n' z' [= <-] [= <-] [= <-] Hz' _.
      assert (z' = z) as -> by congruence. done.
    + assert (¬ held) as Hnot.
      { intros (s' & h' & n' & z' & Hs1 & Hh1 & Hn1 & Hz' & Hname').
        assert (s' = s) as -> by congruence.
        assert (h' = h) as -> by congruence.
        assert (n' = n) as -> by congruence.
        assert (z' = z) as -> by congruence. done. }
      split_and!; [split; [intros [=] | done] | | done].
      intros s' h' n' z' [= <-] [= <-] [= <-] Hz' Hname'.
      assert (z' = z) as -> by congruence. done.
Qed.

(** C5.  The port at start-up is 3005.  The specification wants a supplied
    value below 2000 replaced by 3000, but [setListeningPort] tests the port
    the object already holds, not the value supplied: on a new server every
    supplied value becomes the port, also one below 2000, and once the port
    is below 2000 the next call resets it to 3000 whatever is supplied. *)
Theorem setListeningPort_tests_held_port (nm : string) (p : Z) :
  portNumber startup = 3005
  ∧ portNumber (setListeningPort p (new_Server nm)) = p
  ∧ portNumber (setListeningPort 80 (new_Server nm)) = 80
  ∧ portNumber (setListeningPort 5000 (setListeningPort 80 (new_Server nm))) = 3000.
Proof. done. Qed.

(** C6.  [handleGetScores] always issues one query, on the scores table with
    the partition fixed to "VERSION1"; when the store is reached it answers
    with at most 5 rows of that partition, in descending Highscore order,
    and a stored row with a non-negative score is left out only when 5 rows
    with higher scores are returned. *)
Theorem getTopScores_five_descending (req : Request) (w : World) :
  reaches_store 1 w →
  ∃ (p : QueryInput.t) (items : list Item) (keys : list Z),
    calls (API_Score.handleGetScores req w) = CallQuery p :: calls w
    ∧ QueryInput.TableName p = SCORES_TABLE
    ∧ assoc "Service" (QueryInput.KeyConditions p)
      = Some (mkCondition EQ [AV_S (JString "VERSION1")])
    ∧ responses (API_Score.handleGetScores req w) = JsonItems items :: responses w
    ∧ (length items ≤ 5)%nat
    ∧ Forall2
        (shows (mkSchema "Service" "Highscore") ["Service"; "Highscore"; "Name"]
           "VERSION1" (scores (db w)))
        items keys
    ∧ descending keys
    ∧ (∀ z, is_Some (scores (db w) !! ("VERSION1", z)) → 0 ≤ z →
         z ∈ keys ∨ (length keys = 5%nat ∧ Forall (λ k, z < k) keys)).
Proof.
  intros Hnet.
  destruct (handleGetScores_reaches req w Hnet) as [c Hrun].
  destruct (answer_items (mkSchema "Service" "Highscore")
              ["Service"; "Highscore"; "Name"] (Some 5%nat) "VERSION1"
              (scores (db w))) as (keys & Hshow & Hdesc & Hlen & Hall);
    [done | set_solver | set_solver |].
  rewrite capacity_small in Hlen, Hall by lia.
  assert (API_Score.handleGetScores req w
          = dynamodb_query
              (QueryInput.mk SCORES_TABLE
                 [("Service", mkCondition EQ [AV_S (JString "VERSION1")]);
                  ("Highscore", mkCondition GE [AV_N (JString "0")])]
                 ["Service"; "Highscore"; "Name"] false (Some 5%nat))
              (λ reply,
                 match reply with
                 | Failed err => console_log err
                 | Succeeded news => res_json (JsonItems (Items news))
                 end) w) as Hdef by done.
  eexists _, _, keys. split_and!.
  - rewrite Hdef. unfold dynamodb_query.
    rewrite dynamodb_call_reaches by done. rewrite query_scores.
    cbn [with_data]. reflexivity.
  - done.
  - done.
  - rewrite Hrun. reflexivity.
  - by rewrite (Forall2_length _ _ _ Hshow).
  - done.
  - done.
  - done.
Qed.


(** C8.  For every state of the scores table and every score post with
    non-empty string fields and an integer highscore that reaches the store:
    afterwards the row under (service, highscore) holds the new name and
    nothing else, every other key is as before, and when a row was already
    stored under that key the table has as many rows as before. *)
Theorem postScore_overwrites (req : Request) (w : World) (s h n : string) (z : Z) :
  field req "service" = JString s → field req "highscore" = JString h →
  field req "name" = JString n →
  s ≠ EmptyString → n ≠ EmptyString → parse_decimal h = Some z →
  reaches_store 1 w →
  let w' := API_Score.handleScorePost req w in
  scores (db w') !! (s, z) = Some (score_row n)
  ∧ name_at (scores (db w')) (s, z) = Some (StrV n)
  ∧ (∀ k, k ≠ (s, z) → scores (db w') !! k = scores (db w) !! k)
  ∧ (is_Some (scores (db w) !! (s, z)) →
       size (scores (db w')) = size (scores (db w)))
  ∧ responses w' = JsonMsg "Score Posted" :: responses w.
Proof.
  intros Hs Hh Hn Hs' Hn' Hz Hnet w'. subst w'.
  destruct (handleScorePost_valid req w s h n z) as [c ->]; try done.
  cbn [res_json set_db db scores responses]. split_and!.
  - apply lookup_insert_eq.
  - unfold name_at. by rewrite lookup_insert_eq.
  - intros k Hk. by rewrite lookup_insert_ne.
  - intros [old Hold].
    rewrite <- (insert_delete_id (scores (db w)) (s, z) old) at 2 by done.
    rewrite <- (insert_delete_eq (scores (db w))).
    rewrite !map_size_insert_None by apply lookup_delete_eq. done.
  - by destruct w.
Qed.

(** C9, as amended.  For every news delete request whose service is a
    non-empty string and whose postID is a string holding an integer
    numeral, when the store is reached: the success message is sent whether
    or not a row was stored under the key, the key holds no row afterwards,
    and a second delete with the same key answers the same and leaves the
    database as the first one left it. *)
Theorem deleteNews_idempotent (req : Request) (w : World) (s p : string) (z : Z) :
  field req "service" = JString s → field req "postID" = JString p →
  s ≠ EmptyString → parse_decimal p = Some z →
  reaches_store 2 w →
  let once := API_News.handleDeleteRequest req w in
  let twice := API_News.handleDeleteRequest req once in
  responses once = JsonMsg "item deleted successful" :: responses w
  ∧ news (db once) = delete (s, z) (news (db w))
  ∧ scores (db once) = scores (db w)
  ∧ responses twice = JsonMsg "item deleted successful" :: responses once
  ∧ db twice = db once.
Proof.
  intros Hs Hp Hs' Hz Hnet once twice. subst once twice.
  destruct (handleDeleteRequest_news req w s p z) as [c1 H1]; try done.
  { apply (reaches_store_le 1 2); [lia | done]. }
  rewrite H1.
  destruct (handleDeleteRequest_news req
              (res_json (JsonMsg "item deleted successful")
                 (set_db (mkDatabase (delete (s, z) (news (db w))) (scores (db w)))
                    (issued c1 w))) s p z) as [c2 H2]; try done.
  { by apply (reaches_store_issued 1 c1) in Hnet. }
  rewrite H2.
  cbn [res_json set_db db news scores responses issued record_call set_network].
  split_and!; try done.
  by rewrite delete_delete_eq.
Qed.

(** C10.  On each of the four post and delete routes, a request in which a
    required field is present with a falsy value (the empty string, the
    number 0, [null], [false]) is treated like one that lacks the field: the
    validation-failure message is sent, no call to the store is issued and
    the store is unchanged.  With postID the number 0 on the news delete
    route, the post stored under identifier 0 is therefore not deleted. *)
Theorem falsy_field_refused_like_missing (r : Route) (req : Request) (w : World)
    (f : string) (v : JSValue) :
  f ∈ required r →
  body req !! f = Some v →
  truthy v = false →
  responses (dispatch r req w) = JsonMsg (refusal r) :: responses w
  ∧ calls (dispatch r req w) = calls w
  ∧ db (dispatch r req w) = db w.
Proof.
  intros Hf Hv Hfalsy.
  rewrite (falsy_refusal r req w f); [done | done |].
  unfold field. by rewrite Hv.
Qed.

(** * Witnesses *)

Lemma getPostID_allocates_successor_witness :
  ∃ id : string,
    id = "2"
    ∧ ∀ callback, ∃ c,
        API_News.getPostID (JString "VERSION1") callback two_posts
        = callback id (issued c two_posts).
Proof.
  destruct (getPostID_allocates_successor two_posts "VERSION1")
    as (id & Hcb & _ & Hhigh & _).
  - apply two_posts_safe.
  - by apply empty_network_reaches.
  - exists id. split; [| done].
    rewrite (Hhigh 1); [reflexivity | apply two_posts_highest].
Defined.

Lemma missing_field_refused_witness :
  responses (dispatch PostNews post_without_text empty_world)
    = [JsonMsg "Didnt provide all information needed"]
  ∧ calls (dispatch PostNews post_without_text empty_world) = []
  ∧ db (dispatch PostNews post_without_text empty_world) = db empty_world.
Proof.
  apply (missing_field_refused PostNews post_without_text empty_world "text").
  - compute_done.
  - reflexivity.
Defined.

Lemma deleteScore_conditional_witness :
  responses (API_Score.handleDeleteRequest (score_request "100" "Alice") bob_at_100)
    = [JsonMsgErr ConditionalCheckFailedException]
  ∧ db (API_Score.handleDeleteRequest (score_request "100" "Alice") bob_at_100)
    = db bob_at_100.
Proof.
  destruct (deleteScore_conditional (score_request "100" "Alice") bob_at_100)
    as (_ & _ & Hfail).
  - reflexivity.
  - intros h Hh. vm_compute in Hh. injection Hh as <-. exists 100. reflexivity.
  - by apply empty_network_reaches.
  - apply Hfail. intros (s & h & n & z & Hs & Hh & Hn & Hz & Hname).
    vm_compute in Hs. injection Hs as <-.
    vm_compute in Hh. injection Hh as <-.
    vm_compute in Hn. injection Hn as <-.
    vm_compute in Hz. injection Hz as <-.
    vm_compute in Hname. discriminate Hname.
Defined.

Lemma getTopScores_five_descending_witness :
  ∃ items : list Item,
    responses (API_Score.handleGetScores (request []) bob_at_100) = [JsonItems items]
    ∧ (length items ≤ 5)%nat.
Proof.
  destruct (getTopScores_five_descending (request []) bob_at_100)
    as (p & items & keys & _ & _ & _ & Hres & Hlen & _).
  - by apply empty_network_reaches.
  - exists items. split; [exact Hres | exact Hlen].
Defined.


Lemma postScore_overwrites_witness :
  name_at
    (scores (db (API_Score.handleScorePost (score_request "100" "Alice") bob_at_100)))
    ("VERSION1", 100) = Some (StrV "Alice")
  ∧ size (scores (db (API_Score.handleScorePost (score_request "100" "Alice")
                        bob_at_100))) = 1%nat.
Proof.
  destruct (postScore_overwrites (score_request "100" "Alice") bob_at_100
              "VERSION1" "100" "Alice" 100) as (_ & Hname & _ & Hsize & _).
  - reflexivity.
  - reflexivity.
  - reflexivity.
  - discriminate.
  - discriminate.
  - reflexivity.
  - by apply empty_network_reaches.
  - split; [exact Hname |]. rewrite Hsize; [reflexivity | eexists; reflexivity].
Defined.

Lemma deleteNews_idempotent_witness :
  responses (API_News.handleDeleteRequest delete_id_7 two_posts)
    = [JsonMsg "item deleted successful"]
  ∧ db (API_News.handleDeleteRequest delete_id_7
          (API_News.handleDeleteRequest delete_id_7 two_posts))
    = db (API_News.handleDeleteRequest delete_id_7 two_posts).
Proof.
  destruct (deleteNews_idempotent delete_id_7 two_posts "VERSION1" "7" 7)
    as (Hres & _ & _ & _ & Hsame).
  - reflexivity.
  - reflexivity.
  - discriminate.
  - reflexivity.
  - by apply empty_network_reaches.
  - split; [exact Hres | exact Hsame].
Defined.

Lemma falsy_field_refused_like_missing_witness :
  responses (dispatch DeleteNews delete_id_number_zero two_posts)
    = [JsonMsg "invalid request"]
  ∧ calls (dispatch DeleteNews delete_id_number_zero two_posts) = []
  ∧ db (dispatch DeleteNews delete_id_number_zero two_posts) = db two_posts.
Proof.
  apply (falsy_field_refused_like_missing DeleteNews delete_id_number_zero two_posts
           "postID" (JNumber 0)).
  - compute_done.
  - reflexivity.
  - reflexivity.
Defined.

(** * Where the specification goes too far *)

(** Against C4 as it stands.  Bob's score is stored at 100, and the request
    to delete it names the key and the name; but it holds the highscore as a
    JSON number, which passes the test on the body and which the SDK
    refuses: the success message is not sent and the row stays. *)
Lemma deleteScore_number_refused :
  field delete_bob_number_100 "service" = JString "VERSION1"
  ∧ field delete_bob_number_100 "highscore" = JNumber 100
  ∧ field delete_bob_number_100 "name" = JString "Bob"
  ∧ name_at (scores (db bob_at_100)) ("VERSION1", 100) = Some (StrV "Bob")
  ∧ responses (API_Score.handleDeleteRequest delete_bob_number_100 bob_at_100)
    ≠ JsonMsg "item deleted successful" :: responses bob_at_100
  ∧ responses (API_Score.handleDeleteRequest delete_bob_number_100 bob_at_100)
    = [JsonMsgErr InvalidParameterType]
  ∧ db (API_Score.handleDeleteRequest delete_bob_number_100 bob_at_100)
    = db bob_at_100.
Proof.
  split_and!; [reflexivity | reflexivity | reflexivity | reflexivity | | |].
  - intros H. vm_compute in H. discriminate H.
  - reflexivity.
  - reflexivity.
Qed.


(** Against C9 as it stands.  Both fields are present, but the postID is a
    JSON number: the request passes the test on the body, the SDK refuses
    the call, and the answer is its error, not the success message. *)
Lemma deleteNews_number_refused :
  body delete_id_number_7 !! "service" = Some (JString "VERSION1")
  ∧ body delete_id_number_7 !! "postID" = Some (JNumber 7)
  ∧ responses (API_News.handleDeleteRequest delete_id_number_7 two_posts)
    ≠ JsonMsg "item deleted successful" :: responses two_posts
  ∧ responses (API_News.handleDeleteRequest delete_id_number_7 two_posts)
    = [JsonMsgErr InvalidParameterType].
Proof.
  split_and!; [reflexivity | reflexivity | | reflexivity].
  intros H. vm_compute in H. discriminate H.
Qed.

(** * Further properties of the handlers *)

(** ** What a handler run looks like, whatever the store does *)

Ltac store_call_cases w0 err data d Hc Hop :=
  match goal with
  | |- context [dynamodb_call ?c ?op ?cb w0] =>
      destruct (dynamodb_call_outcome c op cb w0)
        as [[err ->] | (data & d & Hc & Hop & ->)]
  end.

Lemma with_data_inr {A B : Type} (f : A → B) (r : StoreError + A) (b : B) :
  with_data f r = inr b → ∃ a, r = inr a ∧ b = f a.
Proof. destruct r as [e | a]; [done |]. intros [= <-]. by exists a. Qed.

Lemma handleListNews_shape (req : Request) (w : World) :
  ∃ c, (∃ err, API_News.handleListNews req w = console_log err (failed_call c w))
       ∨ (∃ items, API_News.handleListNews req w
                   = res_json (JsonItems items) (issued c w)).
Proof.
  unfold API_News.handleListNews, dynamodb_query. eexists.
  store_call_cases w err out d Hc Hop; [left; by eexists |].
  apply with_data_inr in Hop as (out' & _ & [= -> ->]).
  right. eexists. by rewrite set_db_issued.
Qed.

Lemma handleGetScores_shape (req : Request) (w : World) :
  ∃ c, (∃ err, API_Score.handleGetScores req w = console_log err (failed_call c w))
       ∨ (∃ items, API_Score.handleGetScores req w
                   = res_json (JsonItems items) (issued c w)).
Proof.
  unfold API_Score.handleGetScores, dynamodb_query. eexists.
  store_call_cases w err out d Hc Hop; [left; by eexists |].
  apply with_data_inr in Hop as (out' & _ & [= -> ->]).
  right. eexists. by rewrite set_db_issued.
Qed.

Lemma handleDeleteRequest_news_shape (req : Request) (w : World) :
  (validated DeleteNews req = false
   ∧ API_News.handleDeleteRequest req w = res_json (JsonMsg "invalid request") w)
  ∨ (validated DeleteNews req = true
     ∧ ∃ c,
       (∃ err, API_News.handleDeleteRequest req w
               = res_json (JsonMsgErr err) (failed_call c w))
       ∨ (∃ d, deleteItem (news_delete_params req) (db w) = inr d
          ∧ API_News.handleDeleteRequest req w
            = res_json (JsonMsg "item deleted successful")
                (set_db d (issued c w)))).
Proof.
  unfold API_News.handleDeleteRequest, validated. cbn [required].
  rewrite guard_validated2.
  destruct (forallb _ _); [right | by left].
  split; [done |]. unfold dynamodb_deleteItem. eexists.
  store_call_cases w err out d Hc Hop; [left; by eexists |].
  apply with_data_inr in Hop as (d' & Hdel & [= -> ->]).
  right. by exists d'.
Qed.

Lemma handleDeleteRequest_score_shape (req : Request) (w : World) :
  (validated DeleteScore req = false
   ∧ API_Score.handleDeleteRequest req w = res_json (JsonMsg "invalid request") w)
  ∨ (validated DeleteScore req = true
     ∧ ∃ c,
       (∃ err, API_Score.handleDeleteRequest req w
               = res_json (JsonMsgErr err) (failed_call c w))
       ∨ (∃ d, deleteItem (score_delete_params req) (db w) = inr d
          ∧ API_Score.handleDeleteRequest req w
            = res_json (JsonMsg "item deleted successful")
                (set_db d (issued c w)))).
Proof.
  unfold API_Score.handleDeleteRequest, validated, body_value. cbn [required].
  rewrite guard_validated3.
  destruct (forallb _ _); [right | by left].
  split; [done |]. unfold dynamodb_deleteItem. eexists.
  store_call_cases w err out d Hc Hop; [left; by eexists |].
  apply with_data_inr in Hop as (d' & Hdel & [= -> ->]).
  right. by exists d'.
Qed.

Lemma db_count_post (w : World) : db (count_post w) = db w.
Proof. done. Qed.

Lemma handleScorePost_shape (req : Request) (w : World) :
  (validated PostScore req = false
   ∧ API_Score.handleScorePost req w = res_json (JsonMsg "Invalid params") w)
  ∨ (validated PostScore req = true
     ∧ ∃ c,
       (∃ err, API_Score.handleScorePost req w
               = res_json (JsonMsg "Score Post Failed")
                   (console_log err (failed_call c (count_post w))))
       ∨ (∃ d, putItem (score_put_params req) (db w) = inr d
          ∧ API_Score.handleScorePost req w
            = res_json (JsonMsg "Score Posted")
                (set_db d (issued c (count_post w))))).
Proof.
  unfold API_Score.handleScorePost, validated, body_value. cbn [required].
  rewrite guard_validated3.
  destruct (forallb _ _); [right | by left].
  split; [done |]. unfold dynamodb_putItem. eexists.
  store_call_cases (count_post w) err out d Hc Hop; [left; by eexists |].
  rewrite db_count_post in Hop.
  apply with_data_inr in Hop as (d' & Hput & [= -> ->]).
  right. by exists d'.
Qed.

Lemma handleNewsPost_shape (req : Request) (w : World) :
  (validated PostNews req = false
   ∧ API_News.handleNewsPost req w
     = res_json (JsonMsg "Didnt provide all information needed") w)
  ∨ (validated PostNews req = true
     ∧ ∃ c1,
       (∃ err, API_News.handleNewsPost req w = console_log err (failed_call c1 w))
       ∨ (∃ s c2, field req "service" = JString s
          ∧ ((∃ err, API_News.handleNewsPost req w
                     = res_json (JsonMsgErr err)
                         (console_log err (failed_call c2 (issued c1 w))))
             ∨ (∃ d,
                  putItem
                    (news_put_params req (decimal (next_id s (news (db w)))))
                    (db w) = inr d
                  ∧ API_News.handleNewsPost req w
                    = res_json (JsonMsg "News Posted")
                        (set_db d (issued c2 (issued c1 w))))))).
Proof.
  unfold API_News.handleNewsPost, validated, body_value. cbn [required].
  rewrite guard_validated3.
  destruct (forallb _ _); [right | by left].
  split; [done |].
  match goal with
  | |- context [API_News.getPostID ?v ?cb w] =>
      destruct (getPostID_cases v cb w) as [(c1 & err & ->) | (c1 & s & Hs & ->)]
  end.
  { exists c1. left. by eexists. }
  exists c1. right. exists s. eexists. split; [done |].
  unfold dynamodb_putItem.
  store_call_cases (issued c1 w) err out d Hc Hop; [left; by eexists |].
  rewrite issued_db in Hop.
  apply with_data_inr in Hop as (d' & Hput & [= -> ->]).
  right. by exists d'.
Qed.

(** ** What the store operations change *)

Lemma find_news_table (d : Database) :
  find_table NEWS_TABLE d = Some (mkSchema "Service" "PostID", news d).
Proof. done. Qed.

Lemma find_scores_table (d : Database) :
  find_table SCORES_TABLE d = Some (mkSchema "Service" "Highscore", scores d).
Proof. done. Qed.

Lemma putItem_news_effect (item : list (string * AttributeValue)) (d d' : Database) :
  putItem (PutItemInput.mk NEWS_TABLE item) d = inr d' →
  scores d' = scores d ∧ ∃ k row, news d' = <[k := row]> (news d).
Proof.
  unfold putItem. cbn [PutItemInput.TableName PutItemInput.Item].
  rewrite find_news_table. cbv beta iota.
  destruct (check_item item) as [e | it]; [done |].
  destruct (key_of _ it) as [k |]; [| done].
  intros [= <-]. split; [done |]. by eexists _, _.
Qed.

Lemma putItem_scores_effect (item : list (string * AttributeValue)) (d d' : Database) :
  putItem (PutItemInput.mk SCORES_TABLE item) d = inr d' →
  news d' = news d ∧ ∃ k row, scores d' = <[k := row]> (scores d).
Proof.
  unfold putItem. cbn [PutItemInput.TableName PutItemInput.Item].
  rewrite find_scores_table. cbv beta iota.
  destruct (check_item item) as [e | it]; [done |].
  destruct (key_of _ it) as [k |]; [| done].
  intros [= <-]. split; [done |]. by eexists _, _.
Qed.

(** The key a pair of key attributes denotes: a string and a numeral. *)
Lemma key_of_pair (ha ra : string) (v1 v2 : JSValue) (it : Item) (k : string * Z) :
  ha ≠ ra →
  check_item [(ha, AV_S v1); (ra, AV_N v2)] = inr it →
  key_of (mkSchema ha ra) it = Some k →
  v1 = JString k.1 ∧ ∃ p, v2 = JString p ∧ parse_decimal p = Some k.2.
Proof.
  intros Hne. cbn [check_item check_attr].
  destruct v1 as [| | | | s |]; try done.
  destruct v2 as [| | | | p |]; try done.
  destruct (parse_decimal p) as [z |] eqn:Hp; [| done].
  intros [= <-]. unfold key_of. cbn [hashKey rangeKey].
  rewrite lookup_insert_eq, lookup_insert_ne, lookup_insert_eq by done.
  intros [= <-]. split; [done |]. by exists p.
Qed.

Lemma deleteItem_news_effect (req : Request) (d d' : Database) :
  deleteItem (news_delete_params req) d = inr d' →
  scores d' = scores d
  ∧ ∃ k, news d' = delete k (news d)
      ∧ field req "service" = JString k.1
      ∧ ∃ p, field req "postID" = JString p ∧ parse_decimal p = Some k.2.
Proof.
  unfold deleteItem, news_delete_params.
  cbn [DeleteItemInput.TableName DeleteItemInput.Key DeleteItemInput.Expected].
  rewrite find_news_table. cbv beta iota.
  destruct (check_item _) as [e | it] eqn:Hit; [done |].
  destruct (key_of _ it) as [k |] eqn:Hk; [| done].
  cbn [expectations]. intros [= <-]. split; [done |].
  exists k. split; [done |].
  by apply (key_of_pair "Service" "PostID" _ _ it).
Qed.

Lemma deleteItem_scores_effect (req : Request) (d d' : Database) :
  deleteItem (score_delete_params req) d = inr d' →
  news d' = news d
  ∧ ∃ k, scores d' = delete k (scores d)
      ∧ field req "service" = JString k.1
      ∧ (∃ p, field req "highscore" = JString p ∧ parse_decimal p = Some k.2)
      ∧ ∃ n, field req "name" = JString n
          ∧ name_at (scores d) k = Some (StrV n).
Proof.
  unfold deleteItem, score_delete_params.
  cbn [DeleteItemInput.TableName DeleteItemInput.Key DeleteItemInput.Expected].
  rewrite find_scores_table. cbv beta iota.
  destruct (check_item _) as [e | it] eqn:Hit; [done |].
  destruct (key_of _ it) as [k |] eqn:Hk; [| done].
  cbn [expectations expectation Exists Value snd fst check_attr].
  destruct (field req "name") as [| | | | n |] eqn:Hn; try done.
  rewrite andb_true_r.
  case_bool_decide as Hname; [| done].
  intros [= <-]. split; [done |].
  exists k. split; [done |].
  destruct (key_of_pair "Service" "Highscore" (field req "service")
              (field req "highscore") it k) as [Hs Hp]; try done.
  split_and!; [done | done |].
  exists n. split; [done |].
  rewrite <- Hname. unfold name_at.
  destruct (scores d !! k) as [row |]; [| done].
  simpl. by rewrite lookup_render_other.
Qed.


Lemma putItem_score_put_params (req : Request) (d d' : Database) :
  putItem (score_put_params req) d = inr d' →
  ∃ s p z n,
    field req "service" = JString s
    ∧ field req "highscore" = JString p ∧ parse_decimal p = Some z
    ∧ field req "name" = JString n
    ∧ scores d' = <[(s, z) := score_row n]> (scores d).
Proof.
  unfold putItem, score_put_params.
  cbn [PutItemInput.TableName PutItemInput.Item check_item check_attr].
  rewrite find_scores_table. cbv beta iota.
  destruct (field req "service") as [| | | | s |]; try discriminate.
  destruct (field req "highscore") as [| | | | p |]; try discriminate.
  destruct (parse_decimal p) as [z |] eqn:Hp; [| discriminate].
  destruct (field req "name") as [| | | | n |]; try discriminate.
  intros [= <-]. by exists s, p, z, n.
Qed.


(** A numeral that reads as [z] is not the plain numeral of another
    integer. *)
Lemma parse_decimal_not_other (p : string) (z : Z) :
  parse_decimal p = Some z → ∀ z', plain_integer p = Some z' → z' = z.
Proof. intros Hp z' Hz'. apply parse_decimal_plain in Hz'. congruence. Qed.


Lemma scores_table_after (r : Route) (req : Request) (w : World) :
  scores (db (dispatch r req w)) = scores (db w)
  ∨ (r = PostScore
     ∧ ∃ s p z n,
         field req "service" = JString s
         ∧ field req "highscore" = JString p ∧ parse_decimal p = Some z
         ∧ field req "name" = JString n
         ∧ scores (db (dispatch r req w))
           = <[(s, z) := score_row n]> (scores (db w)))
  ∨ (r = DeleteScore
     ∧ ∃ k, scores (db (dispatch r req w)) = delete k (scores (db w))
          ∧ field req "service" = JString k.1
          ∧ (∃ p, field req "highscore" = JString p ∧ parse_decimal p = Some k.2)
          ∧ ∃ n, field req "name" = JString n
              ∧ name_at (scores (db w)) k = Some (StrV n)).
Proof.
  destruct r; cbn [dispatch].
  - left. destruct (handleNewsPost_shape req w)
      as [[_ ->] | [_ (c1 & [[err ->] | (s & c2 & _ & [[err ->] | (d & Hput & ->)])])]];
      try done.
    apply putItem_news_effect in Hput as [Hsame _]. exact Hsame.
  - left. by destruct (handleListNews_shape req w) as (c & [[err ->] | [items ->]]).
  - left. destruct (handleDeleteRequest_news_shape req w)
      as [[_ ->] | [_ (c & [[err ->] | (d & Hdel & ->)])]]; try done.
    apply deleteItem_news_effect in Hdel as [Hsame _]. exact Hsame.
  - destruct (handleScorePost_shape req w)
      as [[_ ->] | [_ (c & [[err ->] | (d & Hput & ->)])]];
      try (left; by destruct w).
    right; left. split; [done |].
    apply putItem_score_put_params in Hput
      as (s & p & z & n & Hs & Hp & Hz & Hn & Hsc).
    exists s, p, z, n. split_and!; try done; destruct w; exact Hsc.
  - left. by destruct (handleGetScores_shape req w) as (c & [[err ->] | [items ->]]).
  - destruct (handleDeleteRequest_score_shape req w)
      as [[_ ->] | [_ (c & [[err ->] | (d & Hdel & ->)])]]; try by left.
    right; right. split; [done |].
    apply deleteItem_scores_effect in Hdel as [_ (k & Hscores & Hkey)]. by exists k.
Qed.



(** ** The properties *)

(** X1.  A route changes at most its own table: the news table changes only
    under the two writing routes of [news_api.js], the scores table only
    under the two writing routes of [score_api.js], whatever the request and
    whatever the store answers.  The two GET routes change neither. *)
Theorem routes_change_only_their_table (r : Route) (req : Request) (w : World) :
  (r ∈ [PostNews; DeleteNews] ∨ news (db (dispatch r req w)) = news (db w))
  ∧ (r ∈ [PostScore; DeleteScore] ∨ scores (db (dispatch r req w)) = scores (db w)).
Proof.
  destruct r; cbn [dispatch].
  - split; [left; set_solver | right].
    destruct (handleNewsPost_shape req w)
      as [[_ ->] | [_ (c1 & [[err ->] | (s & c2 & _ & [[err ->] | (d & Hput & ->)])])]];
      try done.
    apply putItem_news_effect in Hput as [Hsame _]. exact Hsame.
  - destruct (handleListNews_shape req w) as (c & [[err ->] | [items ->]]);
      split; by right.
  - split; [left; set_solver | right].
    destruct (handleDeleteRequest_news_shape req w)
      as [[_ ->] | [_ (c & [[err ->] | (d & Hdel & ->)])]]; try done.
    apply deleteItem_news_effect in Hdel as [Hsame _]. exact Hsame.
  - split; [right | left; set_solver].
    destruct (handleScorePost_shape req w)
      as [[_ ->] | [_ (c & [[err ->] | (d & Hput & ->)])]]; try done.
    apply putItem_scores_effect in Hput as [Hsame _]. destruct w; exact Hsame.
  - destruct (handleGetScores_shape req w) as (c & [[err ->] | [items ->]]);
      split; by right.
  - split; [right | left; set_solver].
    destruct (handleDeleteRequest_score_shape req w)
      as [[_ ->] | [_ (c & [[err ->] | (d & Hdel & ->)])]]; try done.
    apply deleteItem_scores_effect in Hdel as [Hsame _]. exact Hsame.
Qed.

(** X2.  [sessionPosts] of the score API counts the score posts that pass the
    test on the body, whether the put then succeeds or fails (the increment
    comes before the call); a refused score post and every other route leave
    it alone. *)
Theorem sessionPosts_counts_accepted_score_posts (r : Route) (req : Request)
    (w : World) :
  sessionPosts (dispatch r req w)
  = match r with
    | PostScore =>
        if validated PostScore req then S (sessionPosts w) else sessionPosts w
    | _ => sessionPosts w
    end.
Proof.
  destruct r; cbn [dispatch].
  - destruct (handleNewsPost_shape req w)
      as [[_ ->] | [_ (c1 & [[err ->] | (s & c2 & _ & [[err ->] | (d & Hput & ->)])])]];
      done.
  - by destruct (handleListNews_shape req w) as (c & [[err ->] | [items ->]]).
  - by destruct (handleDeleteRequest_news_shape req w)
      as [[_ ->] | [_ (c & [[err ->] | (d & Hdel & ->)])]].
  - by destruct (handleScorePost_shape req w)
      as [[-> ->] | [-> (c & [[err ->] | (d & Hput & ->)])]].
  - by destruct (handleGetScores_shape req w) as (c & [[err ->] | [items ->]]).
  - by destruct (handleDeleteRequest_score_shape req w)
      as [[_ ->] | [_ (c & [[err ->] | (d & Hdel & ->)])]].
Qed.

(** X3.  No handler throws: in particular the read of
    [news.Items[0].PostID.N] in [getPostID] is never made on a missing row or
    attribute, because it is made only when the answer holds a row and the
    query asked for the PostID attribute. *)
Theorem no_route_throws (r : Route) (req : Request) (w : World) :
  uncaught (dispatch r req w) = uncaught w.
Proof.
  destruct r; cbn [dispatch].
  - destruct (handleNewsPost_shape req w)
      as [[_ ->] | [_ (c1 & [[err ->] | (s & c2 & _ & [[err ->] | (d & Hput & ->)])])]];
      done.
  - by destruct (handleListNews_shape req w) as (c & [[err ->] | [items ->]]).
  - by destruct (handleDeleteRequest_news_shape req w)
      as [[_ ->] | [_ (c & [[err ->] | (d & Hdel & ->)])]].
  - destruct (handleScorePost_shape req w)
      as [[_ ->] | [_ (c & [[err ->] | (d & Hput & ->)])]]; by destruct w.
  - by destruct (handleGetScores_shape req w) as (c & [[err ->] | [items ->]]).
  - by destruct (handleDeleteRequest_score_shape req w)
      as [[_ ->] | [_ (c & [[err ->] | (d & Hdel & ->)])]].
Qed.

(** X4.  A request is answered exactly once, unless it is left without an
    answer: that is the case exactly when it is on a route that queries (the
    two GET routes, and the news post once it passed the test on the body)
    and its query fails before it reaches the store, refused by the SDK or
    failed by the network; then there is no response, and the error is on
    the console.  Responses sent earlier are never touched. *)
Theorem one_response_unless_query_fails (r : Route) (req : Request) (w : World) :
  match query_error r req w with
  | Some err =>
      responses (dispatch r req w) = responses w
      ∧ console (dispatch r req w) = err :: console w
  | None => ∃ j, responses (dispatch r req w) = j :: responses w
  end.
Proof.
  destruct r; cbn [dispatch query_error first_call].
  - unfold API_News.handleNewsPost, validated, body_value. cbn [required].
    rewrite guard_validated3.
    destruct (forallb _ _); [| by eexists].
    destruct (call_error _ w) as [err |] eqn:Herr.
    { by rewrite (getPostID_error _ _ _ err Herr). }
    apply call_error_None in Herr as [Hc Hnet].
    destruct (field req "service") as [| | | | s |] eqn:Hs; try discriminate Hc.
    match goal with
    | |- context [API_News.getPostID (JString s) ?cb w] =>
        destruct (getPostID_reaches s cb w Hnet) as [c1 ->]
    end.
    unfold dynamodb_putItem.
    match goal with
    | |- context [dynamodb_call ?c ?op ?cb (issued c1 w)] =>
        destruct (dynamodb_call_outcome c op cb (issued c1 w))
          as [[err ->] | ([] & d & _ & _ & ->)]
    end; by eexists.
  - unfold API_News.handleListNews, dynamodb_query, news_list_query.
    rewrite dynamodb_call_eq.
    destruct (call_error _ w) as [err |]; [done |].
    rewrite query_news. cbn [with_data]. by eexists.
  - unfold API_News.handleDeleteRequest. destruct (truthy _); [| by eexists].
    unfold dynamodb_deleteItem.
    match goal with
    | |- context [dynamodb_call ?c ?op ?cb w] =>
        destruct (dynamodb_call_outcome c op cb w)
          as [[err ->] | ([] & d & _ & _ & ->)]
    end; by eexists.
  - unfold API_Score.handleScorePost. destruct (truthy _); [| by eexists].
    unfold dynamodb_putItem.
    match goal with
    | |- context [dynamodb_call ?c ?op ?cb (count_post w)] =>
        destruct (dynamodb_call_outcome c op cb (count_post w))
          as [[err ->] | ([] & d & _ & _ & ->)]
    end; by eexists.
  - unfold API_Score.handleGetScores, dynamodb_query, top_scores_query.
    rewrite dynamodb_call_eq.
    destruct (call_error _ w) as [err |]; [done |].
    rewrite query_scores. cbn [with_data]. by eexists.
  - unfold API_Score.handleDeleteRequest. destruct (truthy _); [| by eexists].
    unfold dynamodb_deleteItem.
    match goal with
    | |- context [dynamodb_call ?c ?op ?cb w] =>
        destruct (dynamodb_call_outcome c op cb w)
          as [[err ->] | ([] & d & _ & _ & ->)]
    end; by eexists.
Qed.

(** X5.  When the call of a delete handler (news or score) fails before it
    reaches the store, that error is sent to the client as the message,
    nothing is deleted, and nothing is written on the console.  The error is
    the SDK's when the request holds a value that is not a string, whatever
    the network does, because the SDK checks before it sends; and else the
    one of the network. *)
Theorem delete_failure_forwarded (r : Route) (req : Request) (w : World)
    (err : StoreError) :
  r ∈ [DeleteNews; DeleteScore] →
  validated r req = true →
  call_error (first_call r req) w = Some err →
  responses (dispatch r req w) = JsonMsgErr err :: responses w
  ∧ db (dispatch r req w) = db w
  ∧ console (dispatch r req w) = console w.
Proof.
  intros Hr Hv Herr.
  apply elem_of_cons in Hr as [-> | Hr];
    [| apply elem_of_cons in Hr as [-> | Hr]; [| by apply elem_of_nil in Hr]];
    cbn [dispatch first_call] in *; unfold validated in Hv; cbn [required] in Hv.
  - unfold API_News.handleDeleteRequest. rewrite guard_validated2, Hv.
    unfold dynamodb_deleteItem. rewrite dynamodb_call_eq.
    unfold news_delete_params in Herr. by rewrite Herr.
  - unfold API_Score.handleDeleteRequest, body_value. rewrite guard_validated3, Hv.
    unfold dynamodb_deleteItem. rewrite dynamodb_call_eq.
    unfold score_delete_params in Herr. by rewrite Herr.
Qed.

(** X6.  When the put of a score post fails before it reaches the store
    (the SDK refuses it, or else the network fails it), the client is told
    "Score Post Failed" and not the error, which goes to the console;
    nothing is stored, and the post is counted in [sessionPosts] all the
    same. *)
Theorem scorePost_failure_masked (req : Request) (w : World) (err : StoreError) :
  validated PostScore req = true →
  call_error (first_call PostScore req) w = Some err →
  responses (API_Score.handleScorePost req w)
    = JsonMsg "Score Post Failed" :: responses w
  ∧ console (API_Score.handleScorePost req w) = err :: console w
  ∧ db (API_Score.handleScorePost req w) = db w
  ∧ sessionPosts (API_Score.handleScorePost req w) = S (sessionPosts w).
Proof.
  intros Hv Herr. unfold validated in Hv. cbn [required] in Hv.
  unfold API_Score.handleScorePost, body_value. rewrite guard_validated3, Hv.
  unfold dynamodb_putItem. rewrite dynamodb_call_eq, call_error_count_post.
  cbn [first_call] in Herr. unfold score_put_params in Herr. by rewrite Herr.
Qed.

(** X7.  A score post whose highscore is truthy but not a string (100 sent
    as a JSON number, [true], an object) is refused by the SDK: it is
    answered "Score Post Failed", the error of the SDK goes to the console,
    nothing is stored and nothing is sent on the network, and the post is
    counted in [sessionPosts]. *)
Theorem scorePost_nonstring_highscore_fails (req : Request) (w : World) :
  validated PostScore req = true →
  (∀ h, field req "highscore" ≠ JString h) →
  responses (API_Score.handleScorePost req w)
    = JsonMsg "Score Post Failed" :: responses w
  ∧ (∃ err, err ∈ [InvalidParameterType; MultipleValidationErrors]
       ∧ console (API_Score.handleScorePost req w) = err :: console w)
  ∧ db (API_Score.handleScorePost req w) = db w
  ∧ network (API_Score.handleScorePost req w) = network w
  ∧ sessionPosts (API_Score.handleScorePost req w) = S (sessionPosts w).
Proof.
  intros Hv Hh. unfold validated in Hv. cbn [required] in Hv.
  unfold API_Score.handleScorePost, body_value. rewrite guard_validated3, Hv.
  unfold dynamodb_putItem.
  match goal with
  | |- context [dynamodb_call ?c ?op ?cb (count_post w)] =>
      assert (∃ err, err ∈ [InvalidParameterType; MultipleValidationErrors]
                     ∧ param_check c = Some err) as (err & Hin & Hc)
  end.
  { unfold param_check. cbn [attributes_of PutItemInput.Item fmap list_fmap snd].
    destruct (field req "highscore") as [| | | | h |] eqn:Hf;
      try (by destruct (Hh h));
      destruct (field req "service"), (field req "name");
      cbn [List.filter well_typed negb]; eexists; (split; [| reflexivity]);
      set_solver. }
  rewrite (dynamodb_call_refused _ _ _ _ err Hc).
  split_and!; [done | by exists err | done | done | done].
Qed.

(** X8.  A news post that passes the test on the body but whose service is
    not a string (a JSON number, [true], an object) is never answered: the
    SDK refuses the query of [getPostID], whose error branch only logs, so
    the callback that would write and answer is never run. *)
Theorem newsPost_nonstring_service_unanswered (req : Request) (w : World) :
  validated PostNews req = true →
  (∀ s, field req "service" ≠ JString s) →
  responses (API_News.handleNewsPost req w) = responses w
  ∧ db (API_News.handleNewsPost req w) = db w
  ∧ ∃ err, console (API_News.handleNewsPost req w) = err :: console w.
Proof.
  intros Hv Hs.
  destruct (handleNewsPost_shape req w)
    as [[Hv' _] | [_ (c1 & [[err ->] | (s & c2 & Hs' & _)])]].
  - congruence.
  - split_and!; [done | done | by eexists].
  - by destruct (Hs s).
Qed.

(** X9.  When the query of a news post reaches the store and the put then
    fails before it reaches it (the SDK refuses a heading or a text that is
    not a string, or else the network fails the put), that error is sent to
    the client as the message and written on the console, and nothing is
    stored. *)
Theorem newsPost_put_failure_forwarded (req : Request) (w : World) (s : string)
    (err : StoreError) (rest : list (option StoreError)) :
  validated PostNews req = true →
  field req "service" = JString s →
  network w = None :: rest →
  call_error
    (CallPutItem (news_put_params req (decimal (next_id s (news (db w))))))
    (set_network rest w) = Some err →
  responses (API_News.handleNewsPost req w) = JsonMsgErr err :: responses w
  ∧ console (API_News.handleNewsPost req w) = err :: console w
  ∧ db (API_News.handleNewsPost req w) = db w.
Proof.
  intros Hv Hs Hnet Herr. unfold validated in Hv. cbn [required] in Hv.
  unfold API_News.handleNewsPost, body_value. rewrite guard_validated3, Hv, Hs.
  match goal with
  | |- context [API_News.getPostID (JString s) ?cb w] =>
      destruct (getPostID_reaches s cb w) as [c1 ->]
  end.
  { unfold reaches_store. rewrite Hnet. cbn. by constructor. }
  unfold dynamodb_putItem. rewrite dynamodb_call_eq.
  unfold news_put_params in Herr. rewrite Hs in Herr.
  assert (∀ c, call_error c (issued c1 w) = call_error c (set_network rest w))
    as Hsame.
  { intros c. unfold call_error, issued. destruct w; cbn in *. by rewrite Hnet. }
  rewrite Hsame, Herr. by destruct w.
Qed.


(** X11.  A stored score stays as it is under every request served on its
    own, with two exceptions, both for its service and with a highscore that
    is a string and not the plain numeral of another score: a score delete
    whose name is the Name the row holds, which removes the row, and a score
    post, which puts the posted name in its place. *)
Theorem score_rows_survive (r : Route) (req : Request) (w : World)
    (k : string * Z) (row : Item) :
  scores (db w) !! k = Some row →
  scores (db (dispatch r req w)) !! k = Some row
  ∨ (r ∈ [DeleteScore; PostScore]
     ∧ field req "service" = JString k.1
     ∧ (∃ p, field req "highscore" = JString p
           ∧ ∀ z, plain_integer p = Some z → z = k.2)
     ∧ ∃ n, field req "name" = JString n
         ∧ if decide (r = DeleteScore)
           then row !! "Name" = Some (StrV n)
                ∧ scores (db (dispatch r req w)) !! k = None
           else scores (db (dispatch r req w)) !! k = Some (score_row n)).
Proof.
  intros Hk.
  destruct (scores_table_after r req w)
    as [-> | [(-> & s & p & z & n & Hs & Hp & Hz & Hn & ->)
             | (-> & k' & -> & Hs & (p & Hp & Hz) & n & Hn & Hname)]].
  - by left.
  - destruct (decide ((s, z) = k)) as [<- | Hne].
    + right. split_and!; [set_solver | done | |].
      * exists p. split; [done |]. by apply parse_decimal_not_other.
      * exists n. split; [done |]. rewrite decide_False by done.
        apply lookup_insert_eq.
    + left. by rewrite lookup_insert_ne.
  - destruct (decide (k' = k)) as [-> | Hne].
    + right. split_and!; [set_solver | done | |].
      * exists p. split; [done |]. by apply parse_decimal_not_other.
      * exists n. split; [done |]. rewrite decide_True by done.
        split; [| apply lookup_delete_eq].
        unfold name_at in Hname. by rewrite Hk in Hname.
    + left. by rewrite lookup_delete_ne.
Qed.

Lemma next_id_of_highest (s : string) (t : Table) (m : Z) :
  nonneg_ids t → highest s t m → next_id s t = to_double (to_double m + 1).
Proof.
  intros Hnn [[row Hm] Hmax]. unfold next_id.
  destruct (scan_matching s (compare_with GE 0) t) as [Hsorted Hin].
  assert ((s, m, row) ∈ scan false (matching s (compare_with GE 0) t)) as Hrow.
  { apply Hin. split_and!; [done | done |].
    simpl. apply Z.leb_le. apply (Hnn s m). eauto. }
  destruct (scan false (matching s (compare_with GE 0) t)) as [| [k r] rows];
    [by apply elem_of_nil in Hrow |].
  destruct (Hin k r) as [Hk _].
  destruct Hk as (Hk & Hs & _); [left |].
  destruct k as [ks kz]. simpl in Hs. subst ks. simpl.
  assert (kz ≤ m) as Hle by (apply Hmax; eauto).
  assert (kz = m) as ->; [| done].
  apply elem_of_cons in Hrow as [[= ->] | Hrest]; [done |].
  apply StronglySorted_inv in Hsorted as [_ Hall].
  rewrite Forall_forall in Hall. specialize (Hall _ Hrest).
  unfold key_gt in Hall. simpl in Hall. lia.
Qed.

Lemma safe_ids_nonneg (t : Table) : safe_ids t → nonneg_ids t.
Proof. intros Hsafe s z Hz. by apply (Hsafe s z). Qed.


(** X13.  At the end of the range of exact JavaScript integers the
    identifiers stop growing: when the highest stored PostID of a partition
    is 2^53, [++ID] rounds back to 2^53, so a valid news post is stored
    under the key of the highest post and replaces it. *)
Theorem newsPost_replaces_highest_at_2_53 (req : Request) (w : World)
    (hd s tx : string) :
  field req "heading" = JString hd → field req "service" = JString s →
  field req "text" = JString tx →
  hd ≠ EmptyString → s ≠ EmptyString → tx ≠ EmptyString →
  nonneg_ids (news (db w)) →
  highest s (news (db w)) (2 ^ 53) →
  reaches_store 2 w →
  news (db (API_News.handleNewsPost req w))
    = <[(s, 2 ^ 53) := news_row hd tx]> (news (db w))
  ∧ size (news (db (API_News.handleNewsPost req w))) = size (news (db w))
  ∧ responses (API_News.handleNewsPost req w) = JsonMsg "News Posted" :: responses w.
Proof.
  intros Hhd Hs Htx Hhd' Hs' Htx' Hnn Hhigh Hnet.
  destruct (handleNewsPost_valid req w hd s tx) as (c1 & c2 & ->); try done.
  cbn [res_json set_db db news responses].
  rewrite (next_id_of_highest s _ (2 ^ 53)) by done.
  change (to_double (to_double (2 ^ 53) + 1)) with (2 ^ 53).
  split_and!; [done | | by destruct w].
  destruct Hhigh as [[old Hold] _].
  rewrite <- (insert_delete_id (news (db w)) (s, 2 ^ 53) old) at 2 by done.
  rewrite <- (insert_delete_eq (news (db w))).
  by rewrite !map_size_insert_None by apply lookup_delete_eq.
Qed.

Lemma NoDup_scan (h : string) (r : Z → bool) (t : Table) :
  NoDup (scan false (matching h r t)).
Proof.
  apply (NoDup_fmap_1 fst). unfold scan.
  rewrite (merge_sort_Permutation key_ge (matching h r t)).
  apply NoDup_matching.
Qed.

Lemma scan_depends_on_partition (h : string) (r : Z → bool) (t1 t2 : Table) :
  (∀ z, t1 !! (h, z) = t2 !! (h, z)) →
  scan false (matching h r t1) = scan false (matching h r t2).
Proof.
  intros Hagree.
  destruct (scan_matching h r t1) as [Hs1 Hin1].
  destruct (scan_matching h r t2) as [Hs2 Hin2].
  apply (StronglySorted_unique_strong key_gt); [| done | done |].
  - intros x1 x2 _ _. unfold key_gt. lia.
  - apply NoDup_Permutation; [apply NoDup_scan | apply NoDup_scan |].
    intros [[s z] row]. rewrite Hin1, Hin2. simpl.
    split; intros (Hrow & <- & Hr); by rewrite ?Hagree in *.
Qed.

Lemma answer_depends_on_partition (sch : KeySchema) (attrs : list string)
    (lim : option nat) (h : string) (t1 t2 : Table) :
  (∀ z, t1 !! (h, z) = t2 !! (h, z)) →
  answer sch attrs lim h t1 = answer sch attrs lim h t2.
Proof.
  intros Hagree. unfold answer.
  by rewrite (scan_depends_on_partition h _ t1 t2).
Qed.

(** X14.  The list of news depends on the rows of partition "VERSION1" only:
    two stores that agree on that partition get the same list, whatever
    they hold for other services.  News posted for another service is never
    listed. *)
Theorem listNews_reads_only_VERSION1 (req1 req2 : Request) (w1 w2 : World) :
  (∀ z, news (db w1) !! ("VERSION1", z) = news (db w2) !! ("VERSION1", z)) →
  reaches_store 1 w1 → reaches_store 1 w2 →
  ∃ items,
    responses (API_News.handleListNews req1 w1) = JsonItems items :: responses w1
    ∧ responses (API_News.handleListNews req2 w2) = JsonItems items :: responses w2.
Proof.
  intros Hagree Hnet1 Hnet2.
  destruct (handleListNews_reaches req1 w1 Hnet1) as [c1 ->].
  destruct (handleListNews_reaches req2 w2 Hnet2) as [c2 ->].
  eexists. split; [reflexivity |].
  cbn [res_json responses]. rewrite issued_responses.
  by rewrite (answer_depends_on_partition _ _ _ _ (news (db w1)) (news (db w2))).
Qed.

(** X15.  The top scores depend on the rows of partition "VERSION1" only:
    two stores that agree on that partition get the same answer.  Scores
    posted for another service are never returned. *)
Theorem getScores_reads_only_VERSION1 (req1 req2 : Request) (w1 w2 : World) :
  (∀ z, scores (db w1) !! ("VERSION1", z) = scores (db w2) !! ("VERSION1", z)) →
  reaches_store 1 w1 → reaches_store 1 w2 →
  ∃ items,
    responses (API_Score.handleGetScores req1 w1) = JsonItems items :: responses w1
    ∧ responses (API_Score.handleGetScores req2 w2) = JsonItems items :: responses w2.
Proof.
  intros Hagree Hnet1 Hnet2.
  destruct (handleGetScores_reaches req1 w1 Hnet1) as [c1 ->].
  destruct (handleGetScores_reaches req2 w2 Hnet2) as [c2 ->].
  eexists. split; [reflexivity |].
  cbn [res_json responses]. rewrite issued_responses.
  by rewrite (answer_depends_on_partition _ _ _ _ (scores (db w1)) (scores (db w2))).
Qed.

(** X16.  The newest post comes first: after a valid news post for
    "VERSION1" that reaches the store, the list of news starts with that
    post, with the identifier it was given, its heading and its text. *)
Theorem newest_post_listed_first (req req' : Request) (w : World) (hd tx : string) :
  field req "heading" = JString hd → field req "service" = JString "VERSION1" →
  field req "text" = JString tx →
  hd ≠ EmptyString → tx ≠ EmptyString →
  safe_ids (news (db w)) →
  reaches_store 3 w →
  ∃ (z : Z) (item : Item) (items : list Item),
    responses (API_News.handleListNews req' (API_News.handleNewsPost req w))
      = JsonItems (item :: items) :: JsonMsg "News Posted" :: responses w
    ∧ news (db w) !! ("VERSION1", z) = None
    ∧ item !! "PostID" = Some (NumV z)
    ∧ item !! "Service" = Some (StrV "VERSION1")
    ∧ item !! "Heading" = Some (StrV hd)
    ∧ item !! "Text" = Some (StrV tx).
Proof.
  intros Hhd Hs Htx Hhd' Htx' Hsafe Hnet.
  destruct (handleNewsPost_valid req w hd "VERSION1" tx) as (c1 & c2 & Hpost);
    try done.
  { apply (reaches_store_le 2 3); [lia | done]. }
  set (z := next_id "VERSION1" (news (db w))) in *.
  set (w1 := API_News.handleNewsPost req w) in *.
  assert (news (db w1) = <[("VERSION1", z) := news_row hd tx]> (news (db w))) as Hnews
    by by rewrite Hpost.
  assert (responses w1 = JsonMsg "News Posted" :: responses w) as Hres
    by (rewrite Hpost; by destruct w).
  assert (reaches_store 1 w1) as Hnet1.
  { rewrite Hpost. apply (reaches_store_issued 1 c2), (reaches_store_issued 2 c1), Hnet. }
  assert (news (db w) !! ("VERSION1", z) = None
          ∧ ∀ z', is_Some (news (db w) !! ("VERSION1", z')) → z' < z)
    as [Hfree Hbelow].
  { subst z. destruct (partition_cases "VERSION1" (news (db w))) as [Hempty | [m Hm]].
    - by apply safe_ids_nonneg.
    - split; [apply Hempty |]. intros z' [row Hz]. by rewrite Hempty in Hz.
    - rewrite (next_id_highest "VERSION1" _ m) by done. destruct Hm as [_ Hmax].
      split.
      + destruct (news (db w) !! ("VERSION1", m + 1)) eqn:Hnext; [| done].
        specialize (Hmax (m + 1) ltac:(eauto)). lia.
      + intros z' Hz. specialize (Hmax z' Hz). lia. }
  assert (0 ≤ z) as Hz0 by (by apply next_id_nonneg, safe_ids_nonneg).
  destruct (handleListNews_reaches req' w1 Hnet1) as [c3 ->].
  cbn [res_json responses]. rewrite issued_responses, Hres, Hnews.
  destruct (answer_items (mkSchema "Service" "PostID")
              ["Heading"; "PostID"; "Text"; "Service"] None "VERSION1"
              (<[("VERSION1", z) := news_row hd tx]> (news (db w))))
    as (ids & Hshow & Hdesc & _ & Hall); [done | set_solver | set_solver |].
  specialize (Hall z ltac:(by rewrite lookup_insert_eq) Hz0).
  destruct Hshow as [| item z0 items ids' Hitem Hrest].
  { destruct Hall as [Hin | [Hfull _]]; [by apply elem_of_nil in Hin |].
    destruct capacity_page as [n Hn]. rewrite Hn in Hfull. discriminate Hfull. }
  assert (z0 = z) as ->.
  { destruct Hitem as (_ & _ & _ & row & Hrow & _).
    apply lookup_insert_Some in Hrow as [[[= ->] _] | [_ Hrow]]; [done |].
    specialize (Hbelow z0 ltac:(eauto)).
    destruct Hall as [Hin | [_ Hgt]].
    - apply elem_of_cons in Hin as [-> | Hin]; [done |].
      apply StronglySorted_inv in Hdesc as [_ Hlt].
      rewrite Forall_forall in Hlt. specialize (Hlt z Hin). cbv beta in Hlt. lia.
    - apply Forall_cons in Hgt as [Hgt _]. lia. }
  exists z, item, items.
  destruct Hitem as (Hservice & Hid & _ & row & Hrow & Hattrs).
  rewrite lookup_insert_eq in Hrow. injection Hrow as <-.
  split_and!; try done.
  - rewrite Hattrs; [done | repeat constructor | done | done].
  - rewrite Hattrs; [done | repeat constructor | done | done].
Qed.

Lemma handleDeleteRequest_score_held (req : Request) (w : World) (s h n : string)
    (z : Z) :
  field req "service" = JString s → field req "highscore" = JString h →
  field req "name" = JString n →
  s ≠ EmptyString → n ≠ EmptyString → parse_decimal h = Some z →
  name_at (scores (db w)) (s, z) = Some (StrV n) →
  reaches_store 1 w →
  ∃ c,
    API_Score.handleDeleteRequest req w
    = res_json (JsonMsg "item deleted successful")
        (set_db (mkDatabase (news (db w)) (delete (s, z) (scores (db w))))
           (issued c w)).
Proof.
  intros Hs Hh Hn Hs' Hn' Hz Hname Hnet. eexists.
  unfold API_Score.handleDeleteRequest.
  rewrite !truthy_js_and, Hs, Hh, Hn. unfold body_value.
  rewrite !truthy_JString; [| by intros -> | done | done].
  cbn [truthy andb].
  unfold dynamodb_deleteItem. rewrite dynamodb_call_reaches by done.
  rewrite (deleteItem_scores s h n z) by done.
  by rewrite bool_decide_eq_true_2.
Qed.

(** X17.  Posting a score and then deleting it with the same service,
    highscore and name always succeeds when the store is reached, and
    leaves no row under the key; if the key was free before the post, the
    scores table is back to what it was. *)
Theorem score_post_then_delete (req : Request) (w : World) (s h n : string) (z : Z) :
  field req "service" = JString s → field req "highscore" = JString h →
  field req "name" = JString n →
  s ≠ EmptyString → n ≠ EmptyString → parse_decimal h = Some z →
  reaches_store 2 w →
  let posted := API_Score.handleScorePost req w in
  let deleted := API_Score.handleDeleteRequest req posted in
  responses deleted
    = JsonMsg "item deleted successful" :: JsonMsg "Score Posted" :: responses w
  ∧ scores (db deleted) = delete (s, z) (scores (db w))
  ∧ (scores (db w) !! (s, z) = None → scores (db deleted) = scores (db w))
  ∧ news (db deleted) = news (db w).
Proof.
  intros Hs Hh Hn Hs' Hn' Hz Hnet posted deleted. subst posted deleted.
  destruct (handleScorePost_valid req w s h n z) as [c1 ->]; try done.
  { apply (reaches_store_le 1 2); [lia | done]. }
  match goal with
  | |- context [API_Score.handleDeleteRequest req ?w1] =>
      destruct (handleDeleteRequest_score_held req w1 s h n z) as [c2 ->]
  end; try done.
  { cbn [res_json set_db db scores]. unfold name_at. by rewrite lookup_insert_eq. }
  { exact (reaches_store_issued 1 c1 (count_post w) Hnet). }
  cbn [res_json set_db db scores news responses issued record_call set_network].
  rewrite delete_insert_eq.
  split_and!; [by destruct w | done | | done].
  intros Hfree. by apply delete_id.
Qed.

(** X18.  A score with a negative highscore can be posted and is stored, but
    the top scores never show it: the query of [handleGetScores] asks for
    Highscore >= 0. *)
Theorem negative_score_stored_not_listed (req req' : Request) (w : World)
    (s h n : string) (z : Z) :
  field req "service" = JString s → field req "highscore" = JString h →
  field req "name" = JString n →
  s ≠ EmptyString → n ≠ EmptyString → parse_decimal h = Some z →
  z < 0 →
  reaches_store 2 w →
  let posted := API_Score.handleScorePost req w in
  let listed := API_Score.handleGetScores req' posted in
  responses posted = JsonMsg "Score Posted" :: responses w
  ∧ name_at (scores (db posted)) (s, z) = Some (StrV n)
  ∧ ∃ items,
      responses listed = JsonItems items :: responses posted
      ∧ Forall (λ it : Item, it !! "Highscore" ≠ Some (NumV z)) items.
Proof.
  intros Hs Hh Hn Hs' Hn' Hz Hneg Hnet posted listed. subst posted listed.
  destruct (handleScorePost_valid req w s h n z) as [c1 Hpost]; try done.
  { apply (reaches_store_le 1 2); [lia | done]. }
  rewrite Hpost.
  match goal with
  | |- context [API_Score.handleGetScores req' ?w1] =>
      destruct (handleGetScores_reaches req' w1) as [c2 ->]
  end.
  { exact (reaches_store_issued 1 c1 (count_post w) Hnet). }
  split_and!.
  - by destruct w.
  - cbn [res_json set_db db scores]. unfold name_at. by rewrite lookup_insert_eq.
  - eexists. split; [reflexivity |].
    match goal with
    | |- context [answer ?sch ?attrs ?lim ?p ?t] =>
        destruct (answer_items sch attrs lim p t)
          as (keys & Hshow & _); [done | set_solver | set_solver |]
    end.
    clear Hpost. induction Hshow as [| it k items keys' Hit _ IH]; [constructor |].
    constructor; [| done].
    destruct Hit as (_ & Hk & Hge & _). cbn [rangeKey] in Hk.
    rewrite Hk. intros [= ->]. lia.
Qed.

(** X19.  Whatever requests are served, in whatever order, and whatever the
    network does to each call, a store that starts empty never holds a news
    row with a negative PostID. *)
Theorem ids_never_negative (l : list (Route * Request))
    (net : list (option StoreError)) :
  nonneg_ids (news (db (serve l (world_of (mkDatabase ∅ ∅) net)))).
Proof.
  apply serve_keeps_ids_nonneg. intros s z [row H].
  cbn [world_of db news] in H. by apply lookup_empty_Some in H.
Qed.

(** X20.  The test of [setListeningPort] bears on the value of the call
    before: on a server whose port is at least 2000, two calls in a row leave
    the second value as the port when the first value was at least 2000, and
    3000 when it was not; the second value itself is never tested. *)
Theorem setListeningPort_tests_previous_value (this : Server) (p q : Z) :
  2000 ≤ portNumber this →
  portNumber (setListeningPort q (setListeningPort p this))
    = (if 2000 <=? p then q else 3000)
  ∧ name (setListeningPort q (setListeningPort p this)) = name this.
Proof.
  intros Hheld. unfold setListeningPort.
  destruct (2000 <=? portNumber this) eqn:Hge; [| apply Z.leb_gt in Hge; lia].
  cbn [portNumber name]. by destruct (2000 <=? p).
Qed.

(** X21.  Deleting a score twice is not like deleting news twice: after a
    score delete that succeeded, the same request is answered with the
    error of the failed condition, and changes nothing. *)
Theorem score_delete_twice_fails (req : Request) (w : World) (s h n : string) (z : Z) :
  field req "service" = JString s → field req "highscore" = JString h →
  field req "name" = JString n →
  s ≠ EmptyString → n ≠ EmptyString → parse_decimal h = Some z →
  name_at (scores (db w)) (s, z) = Some (StrV n) →
  reaches_store 2 w →
  let once := API_Score.handleDeleteRequest req w in
  let twice := API_Score.handleDeleteRequest req once in
  responses once = JsonMsg "item deleted successful" :: responses w
  ∧ responses twice = JsonMsgErr ConditionalCheckFailedException :: responses once
  ∧ db twice = db once.
Proof.
  intros Hs Hh Hn Hs' Hn' Hz Hname Hnet once twice. subst once twice.
  destruct (handleDeleteRequest_score_held req w s h n z) as [c1 ->]; try done.
  { apply (reaches_store_le 1 2); [lia | done]. }
  split; [done |].
  unfold API_Score.handleDeleteRequest.
  rewrite !truthy_js_and, Hs, Hh, Hn. unfold body_value.
  rewrite !truthy_JString; [| by intros -> | done | done].
  cbn [truthy andb].
  unfold dynamodb_deleteItem.
  rewrite dynamodb_call_reaches;
    [| reflexivity | exact (reaches_store_issued 1 c1 w Hnet)].
  rewrite (deleteItem_scores s h n z) by done.
  cbn [res_json set_db db scores].
  rewrite bool_decide_eq_false_2; [done |].
  unfold name_at. by rewrite lookup_delete_eq.
Qed.

(** X22.  With no row in partition "VERSION1", the two GET routes answer
    with the empty array, not with an error. *)
Theorem empty_partition_lists_nothing (req : Request) (w : World) :
  empty_partition "VERSION1" (news (db w)) →
  empty_partition "VERSION1" (scores (db w)) →
  reaches_store 1 w →
  responses (API_News.handleListNews req w) = JsonItems [] :: responses w
  ∧ responses (API_Score.handleGetScores req w) = JsonItems [] :: responses w.
Proof.
  intros Hnews Hscores Hnet.
  destruct (handleListNews_reaches req w Hnet) as [c1 ->].
  destruct (handleGetScores_reaches req w Hnet) as [c2 ->].
  cbn [res_json responses]. rewrite !issued_responses.
  split; do 2 f_equal.
  - destruct (answer_items (mkSchema "Service" "PostID")
                ["Heading"; "PostID"; "Text"; "Service"] None "VERSION1"
                (news (db w))) as (keys & Hshow & _); [done | set_solver | set_solver |].
    destruct Hshow as [| it k items keys' Hit _]; [done |].
    destruct Hit as (_ & _ & _ & row & Hrow & _). by rewrite Hnews in Hrow.
  - destruct (answer_items (mkSchema "Service" "Highscore")
                ["Service"; "Highscore"; "Name"] (Some 5%nat) "VERSION1"
                (scores (db w))) as (keys & Hshow & _); [done | set_solver | set_solver |].
    destruct Hshow as [| it k items keys' Hit _]; [done |].
    destruct Hit as (_ & _ & _ & row & Hrow & _). by rewrite Hscores in Hrow.
Qed.

(** ** Witnesses of the further properties *)

Lemma delete_failure_forwarded_witness :
  responses (dispatch DeleteNews delete_id_number_7 two_posts_offline)
    = [JsonMsgErr InvalidParameterType]
  ∧ db (dispatch DeleteNews delete_id_number_7 two_posts_offline)
    = db two_posts_offline
  ∧ console (dispatch DeleteNews delete_id_number_7 two_posts_offline) = [].
Proof.
  apply (delete_failure_forwarded DeleteNews delete_id_number_7 two_posts_offline
           InvalidParameterType).
  - compute_done.
  - reflexivity.
  - reflexivity.
Defined.

Lemma scorePost_failure_masked_witness :
  responses (API_Score.handleScorePost (score_request "100" "Alice") bob_offline)
    = [JsonMsg "Score Post Failed"]
  ∧ console (API_Score.handleScorePost (score_request "100" "Alice") bob_offline)
    = [NetworkingError]
  ∧ db (API_Score.handleScorePost (score_request "100" "Alice") bob_offline)
    = db bob_offline
  ∧ sessionPosts (API_Score.handleScorePost (score_request "100" "Alice") bob_offline)
    = 1%nat.
Proof.
  apply (scorePost_failure_masked (score_request "100" "Alice") bob_offline
           NetworkingError).
  - reflexivity.
  - reflexivity.
Defined.

Lemma scorePost_nonstring_highscore_fails_witness :
  responses (API_Score.handleScorePost score_with_number bob_at_100)
    = [JsonMsg "Score Post Failed"]
  ∧ db (API_Score.handleScorePost score_with_number bob_at_100) = db bob_at_100.
Proof.
  destruct (scorePost_nonstring_highscore_fails score_with_number bob_at_100)
    as (Hres & _ & Hdb & _).
  - reflexivity.
  - intros h Hh. vm_compute in Hh. discriminate Hh.
  - split; [exact Hres | exact Hdb].
Defined.

Lemma newsPost_nonstring_service_unanswered_witness :
  responses (API_News.handleNewsPost news_with_number_service two_posts) = []
  ∧ db (API_News.handleNewsPost news_with_number_service two_posts) = db two_posts
  ∧ ∃ err, console (API_News.handleNewsPost news_with_number_service two_posts)
           = [err].
Proof.
  apply (newsPost_nonstring_service_unanswered news_with_number_service two_posts).
  - reflexivity.
  - intros s Hs. vm_compute in Hs. discriminate Hs.
Defined.

Lemma newsPost_put_failure_forwarded_witness :
  responses (API_News.handleNewsPost (news_request "VERSION1" "Patch" "Fixed bugs")
               two_posts_put_fails)
    = [JsonMsgErr NetworkingError]
  ∧ console (API_News.handleNewsPost (news_request "VERSION1" "Patch" "Fixed bugs")
               two_posts_put_fails)
    = [NetworkingError]
  ∧ db (API_News.handleNewsPost (news_request "VERSION1" "Patch" "Fixed bugs")
          two_posts_put_fails)
    = db two_posts_put_fails.
Proof.
  apply (newsPost_put_failure_forwarded
           (news_request "VERSION1" "Patch" "Fixed bugs") two_posts_put_fails
           "VERSION1" NetworkingError [Some NetworkingError]).
  - reflexivity.
  - reflexivity.
  - reflexivity.
  - reflexivity.
Defined.


Lemma score_rows_survive_witness :
  scores (db (dispatch DeleteScore (score_request "100" "Alice") bob_at_100))
    !! ("VERSION1", 100)
  = Some (score_row "Bob").
Proof.
  destruct (score_rows_survive DeleteScore (score_request "100" "Alice") bob_at_100
              ("VERSION1", 100) (score_row "Bob"))
    as [Hstays | (_ & _ & _ & n & Hn & Hrest)].
  - reflexivity.
  - exact Hstays.
  - vm_compute in Hn. injection Hn as <-.
    rewrite decide_True in Hrest by reflexivity.
    destruct Hrest as [Hname _]. vm_compute in Hname. discriminate Hname.
Defined.


Lemma post_at_2_53_nonneg : nonneg_ids (news (db post_at_2_53)).
Proof.
  intros s z [row H]. cbn [post_at_2_53 world_of db news] in H.
  apply lookup_insert_Some in H as [[[= <- <-] _] | [_ H]]; [lia |].
  by apply lookup_empty_Some in H.
Defined.

Lemma post_at_2_53_highest : highest "VERSION1" (news (db post_at_2_53)) (2 ^ 53).
Proof.
  split; [eexists; apply lookup_insert_eq |].
  intros z [row H]. cbn [post_at_2_53 world_of db news] in H.
  apply lookup_insert_Some in H as [[[= <-] _] | [_ H]]; [lia |].
  by apply lookup_empty_Some in H.
Defined.

Lemma newsPost_replaces_highest_at_2_53_witness :
  news (db (API_News.handleNewsPost (news_request "VERSION1" "Patch" "Fixed bugs")
              post_at_2_53))
    = <[("VERSION1", 2 ^ 53) := news_row "Patch" "Fixed bugs"]>
        (news (db post_at_2_53))
  ∧ size (news (db (API_News.handleNewsPost
                      (news_request "VERSION1" "Patch" "Fixed bugs") post_at_2_53)))
    = size (news (db post_at_2_53))
  ∧ responses (API_News.handleNewsPost (news_request "VERSION1" "Patch" "Fixed bugs")
                 post_at_2_53)
    = [JsonMsg "News Posted"].
Proof.
  apply (newsPost_replaces_highest_at_2_53
           (news_request "VERSION1" "Patch" "Fixed bugs") post_at_2_53
           "Patch" "VERSION1" "Fixed bugs").
  - reflexivity.
  - reflexivity.
  - reflexivity.
  - discriminate.
  - discriminate.
  - discriminate.
  - apply post_at_2_53_nonneg.
  - apply post_at_2_53_highest.
  - by apply empty_network_reaches.
Defined.

Lemma listNews_reads_only_VERSION1_witness :
  ∃ items,
    responses (API_News.handleListNews (request []) two_posts) = [JsonItems items]
    ∧ responses (API_News.handleListNews (request []) two_posts_and_another_service)
      = [JsonItems items].
Proof.
  apply (listNews_reads_only_VERSION1 (request []) (request []) two_posts
           two_posts_and_another_service).
  - intros z. cbn [two_posts_and_another_service world_of db news].
    by rewrite lookup_insert_ne.
  - by apply empty_network_reaches.
  - by apply empty_network_reaches.
Defined.

Lemma getScores_reads_only_VERSION1_witness :
  ∃ items,
    responses (API_Score.handleGetScores (request []) bob_at_100) = [JsonItems items]
    ∧ responses (API_Score.handleGetScores (request []) bob_and_another_service)
      = [JsonItems items].
Proof.
  apply (getScores_reads_only_VERSION1 (request []) (request []) bob_at_100
           bob_and_another_service).
  - intros z. cbn [bob_and_another_service world_of db scores].
    by rewrite lookup_insert_ne.
  - by apply empty_network_reaches.
  - by apply empty_network_reaches.
Defined.

Lemma newest_post_listed_first_witness :
  ∃ (item : Item) (items : list Item),
    responses (API_News.handleListNews (request [])
                 (API_News.handleNewsPost
                    (news_request "VERSION1" "Patch" "Fixed bugs") two_posts))
      = [JsonItems (item :: items); JsonMsg "News Posted"]
    ∧ item !! "Heading" = Some (StrV "Patch")
    ∧ item !! "Text" = Some (StrV "Fixed bugs").
Proof.
  destruct (newest_post_listed_first
              (news_request "VERSION1" "Patch" "Fixed bugs") (request []) two_posts
              "Patch" "Fixed bugs")
    as (z & item & items & Hres & _ & _ & _ & Hhd & Htx).
  - reflexivity.
  - reflexivity.
  - reflexivity.
  - discriminate.
  - discriminate.
  - apply two_posts_safe.
  - by apply empty_network_reaches.
  - exists item, items. split_and!; [exact Hres | exact Hhd | exact Htx].
Defined.

Lemma score_post_then_delete_witness :
  scores (db (API_Score.handleDeleteRequest (score_request "250" "Alice")
                (API_Score.handleScorePost (score_request "250" "Alice") bob_at_100)))
  = scores (db bob_at_100).
Proof.
  destruct (score_post_then_delete (score_request "250" "Alice") bob_at_100
              "VERSION1" "250" "Alice" 250) as (_ & _ & Hback & _).
  - reflexivity.
  - reflexivity.
  - reflexivity.
  - discriminate.
  - discriminate.
  - reflexivity.
  - by apply empty_network_reaches.
  - apply Hback. reflexivity.
Defined.

Lemma negative_score_stored_not_listed_witness :
  name_at
    (scores (db (API_Score.handleScorePost (score_request "-5" "Eve") bob_at_100)))
    ("VERSION1", -5) = Some (StrV "Eve")
  ∧ ∃ items,
      responses (API_Score.handleGetScores (request [])
                   (API_Score.handleScorePost (score_request "-5" "Eve") bob_at_100))
        = [JsonItems items; JsonMsg "Score Posted"]
      ∧ Forall (λ it : Item, it !! "Highscore" ≠ Some (NumV (-5))) items.
Proof.
  destruct (negative_score_stored_not_listed (score_request "-5" "Eve") (request [])
              bob_at_100 "VERSION1" "-5" "Eve" (-5))
    as (Hposted & Hname & items & Hres & Hnone).
  - reflexivity.
  - reflexivity.
  - reflexivity.
  - discriminate.
  - discriminate.
  - reflexivity.
  - lia.
  - by apply empty_network_reaches.
  - split; [exact Hname |]. exists items. split; [| exact Hnone].
    rewrite Hres, Hposted. reflexivity.
Defined.

Lemma setListeningPort_tests_previous_value_witness :
  portNumber (setListeningPort 8080 (setListeningPort 80 (new_Server "x"))) = 3000
  ∧ name (setListeningPort 8080 (setListeningPort 80 (new_Server "x"))) = "x".
Proof.
  apply (setListeningPort_tests_previous_value (new_Server "x") 80 8080).
  cbn. lia.
Defined.

Lemma score_delete_twice_fails_witness :
  responses (API_Score.handleDeleteRequest (score_request "100" "Bob")
               (API_Score.handleDeleteRequest (score_request "100" "Bob") bob_at_100))
  = [JsonMsgErr ConditionalCheckFailedException; JsonMsg "item deleted successful"].
Proof.
  destruct (score_delete_twice_fails (score_request "100" "Bob") bob_at_100
              "VERSION1" "100" "Bob" 100) as (Honce & Htwice & _).
  - reflexivity.
  - reflexivity.
  - reflexivity.
  - discriminate.
  - discriminate.
  - reflexivity.
  - reflexivity.
  - by apply empty_network_reaches.
  - rewrite Htwice, Honce. reflexivity.
Defined.

Lemma empty_partition_lists_nothing_witness :
  responses (API_News.handleListNews (request []) empty_world) = [JsonItems []]
  ∧ responses (API_Score.handleGetScores (request []) empty_world) = [JsonItems []].
Proof.
  apply (empty_partition_lists_nothing (request []) empty_world).
  - intros z. reflexivity.
  - intros z. reflexivity.
  - by apply empty_network_reaches.
Defined.
